(** * Lean blueprint package

    A shallow embedding of [leanblueprint/Packages/blueprint.py]: the markup
    commands that author node flags, the post-parse pass [make_lean_data]
    that derives the formalization status of every node of the dependency
    graphs, the two colour callbacks, the [subgraph] extension of the graph
    class, the per-node subgraph generation and the JSON export.

    Python objects are mutable and shared.  Nodes are therefore kept in a
    store indexed by object identity, and every write [node.userdata[k] = v]
    is an update of that store.  The list bound to [userdata['uses']] is a
    mutable list object owned by its node (the graph plugin builds one list
    per node): extending it in place is an update of the node that owns it.

    A plasTeX node is a sequence of its child nodes and is falsy when it has
    none: [if proof:] fails on a node without a proof node and on a node
    whose proof node is empty.  A set is iterated in the order of its
    [elements]; the results about a loop over the nodes of a graph hold for
    every order of visit.  An exception is one that [except Exception]
    catches.  Opening a file for writing empties it before anything is
    written, and a write that fails leaves the file incomplete. *)

From Stdlib Require Import ZArith Ascii.
From stdpp Require Import gmap strings list fin_maps pretty.

Set Warnings "-register-all".

Local Open Scope string_scope.
Local Open Scope list_scope.

(** ** Python values *)

(** Identity of a node object. *)
Abbreviation nid := nat (only parsing).

(** A dictionary key: a string, or another hashable object, such as a
    section of the document, by identity. *)
Inductive key : Type :=
  | KStr (s : string)
  | KObj (o : nat).

#[global] Instance key_eq_dec : EqDecision key.
Proof. solve_decision. Defined.

(** The values a free-form slot may hold.  [VNode] is a reference to a node
    (an object with an [id] attribute); [VObj] is any other object, given by
    what [str] returns on it ([None] when [str] raises).  [VDict] is a
    dictionary whose keys are strings, [VMap] one with keys of any kind. *)
Inductive value : Type :=
  | VNone
  | VBool (b : bool)
  | VInt (z : Z)
  | VFloat (bits : Z)
  | VStr (s : string)
  | VList (l : list value)
  | VTuple (l : list value)
  | VDict (d : list (string * value))
  | VMap (d : list (key * value))
  | VNode (n : nid)
  | VObj (repr : option string).

(** Dictionaries keep insertion order: assigning to a key that is present
    replaces its value in place, assigning to a new key appends it. *)
Fixpoint dict_get {K A} `{EqDecision K} (k : K) (d : list (K * A))
  : option A :=
  match d with
  | [] => None
  | (k', v) :: d' => if decide (k = k') then Some v else dict_get k d'
  end.

Fixpoint dict_set {K A} `{EqDecision K} (k : K) (v : A) (d : list (K * A))
  : list (K * A) :=
  match d with
  | [] => [(k, v)]
  | (k', v') :: d' =>
      if decide (k = k') then (k, v) :: d' else (k', v') :: dict_set k v d'
  end.

Definition dict_keys {K A} (d : list (K * A)) : list K := d.*1.

(** ** Nodes and their userdata *)

(** The keys of [node.userdata] this package reads or writes, each absent
    ([None]) or present, and the remaining keys under [extra]. *)
Record UserData := mkUserData {
  leanok : option bool;
  mathlibok : option bool;
  notready : option bool;
  uses : option (list nid);
  proved_by : option nid;
  leandecls : option (list string);
  issue : option string;
  lean_urls : option (list (string * string));
  can_state : option bool;
  can_prove : option bool;
  proved : option bool;
  fully_proved : option bool;
  extra : list (string * value)
}.

Definition empty_userdata : UserData :=
  mkUserData None None None None None None None None None None None None [].

Definition set_leanok (b : bool) (d : UserData) : UserData :=
  mkUserData (Some b) (mathlibok d) (notready d) (uses d) (proved_by d)
    (leandecls d) (issue d) (lean_urls d) (can_state d) (can_prove d)
    (proved d) (fully_proved d) (extra d).
Definition set_mathlibok (b : bool) (d : UserData) : UserData :=
  mkUserData (leanok d) (Some b) (notready d) (uses d) (proved_by d)
    (leandecls d) (issue d) (lean_urls d) (can_state d) (can_prove d)
    (proved d) (fully_proved d) (extra d).
Definition set_notready (b : bool) (d : UserData) : UserData :=
  mkUserData (leanok d) (mathlibok d) (Some b) (uses d) (proved_by d)
    (leandecls d) (issue d) (lean_urls d) (can_state d) (can_prove d)
    (proved d) (fully_proved d) (extra d).
Definition set_uses (l : list nid) (d : UserData) : UserData :=
  mkUserData (leanok d) (mathlibok d) (notready d) (Some l) (proved_by d)
    (leandecls d) (issue d) (lean_urls d) (can_state d) (can_prove d)
    (proved d) (fully_proved d) (extra d).
Definition set_leandecls (l : list string) (d : UserData) : UserData :=
  mkUserData (leanok d) (mathlibok d) (notready d) (uses d) (proved_by d)
    (Some l) (issue d) (lean_urls d) (can_state d) (can_prove d)
    (proved d) (fully_proved d) (extra d).
Definition set_issue (s : string) (d : UserData) : UserData :=
  mkUserData (leanok d) (mathlibok d) (notready d) (uses d) (proved_by d)
    (leandecls d) (Some s) (lean_urls d) (can_state d) (can_prove d)
    (proved d) (fully_proved d) (extra d).
Definition set_lean_urls (l : list (string * string)) (d : UserData) : UserData :=
  mkUserData (leanok d) (mathlibok d) (notready d) (uses d) (proved_by d)
    (leandecls d) (issue d) (Some l) (can_state d) (can_prove d)
    (proved d) (fully_proved d) (extra d).
Definition set_can_state (b : bool) (d : UserData) : UserData :=
  mkUserData (leanok d) (mathlibok d) (notready d) (uses d) (proved_by d)
    (leandecls d) (issue d) (lean_urls d) (Some b) (can_prove d)
    (proved d) (fully_proved d) (extra d).
Definition set_can_prove (b : bool) (d : UserData) : UserData :=
  mkUserData (leanok d) (mathlibok d) (notready d) (uses d) (proved_by d)
    (leandecls d) (issue d) (lean_urls d) (can_state d) (Some b)
    (proved d) (fully_proved d) (extra d).
Definition set_proved (b : bool) (d : UserData) : UserData :=
  mkUserData (leanok d) (mathlibok d) (notready d) (uses d) (proved_by d)
    (leandecls d) (issue d) (lean_urls d) (can_state d) (can_prove d)
    (Some b) (fully_proved d) (extra d).
Definition set_fully_proved (b : bool) (d : UserData) : UserData :=
  mkUserData (leanok d) (mathlibok d) (notready d) (uses d) (proved_by d)
    (leandecls d) (issue d) (lean_urls d) (can_state d) (can_prove d)
    (proved d) (Some b) (extra d).

(** A node object: its [id], its [caption] when it has a truthy one, and
    its userdata. *)
Record Node := mkNode {
  node_id : string;
  node_caption : option string;
  userdata : UserData
}.

Definition with_userdata (f : UserData → UserData) (nd : Node) : Node :=
  mkNode (node_id nd) (node_caption nd) (f (userdata nd)).

(** The node objects of a document, by identity. *)
Abbreviation store := (gmap nat Node).

(** [node.userdata[k] = v] on the node [n]. *)
Definition write (n : nid) (f : UserData → UserData) (σ : store) : store :=
  alter (with_userdata f) n σ.

(** [node.userdata.get(k)] on the node [n]: [None] when the key is absent. *)
Definition get {A} (f : UserData → option A) (σ : store) (n : nid) : option A :=
  σ !! n ≫= λ nd, f (userdata nd).

(** Truth value of [userdata.get(k)] for a flag: an absent key gives
    Python's [None], which is falsy. *)
Definition truthy (o : option bool) : bool := default false o.

(** ** The dependency graph of the graph plugin *)

Record DepGraph := mkDepGraph {
  nodes : gset nat;
  edges : gset (nat * nat);
  proof_edges : gset (nat * nat)
}.

(** What this package consumes from the graph plugin, from plasTeX and from
    Python: [graph.ancestors(node)], [item_kind(node)], the truth value
    [bool(node)] of a node object (whether it has child nodes), and the
    builtins [str.strip] and [str] (on the objects [str] is tried on; it
    may raise). *)
Class Plugin := {
  ancestors : DepGraph → nid → gset nat;
  item_kind : nid → string;
  node_bool : nid → bool;
  strip : string → string;
  py_str : value → option string
}.

(** ** Status propagation: [make_lean_data] *)

Definition default_dochome : string :=
  "https://leanprover-community.github.io/mathlib4_docs".

Definition lean_url (project_dochome leandecl : string) : string * string :=
  (leandecl, project_dochome +:+ "/find/#doc/" +:+ leandecl).

(** [all(thm.userdata.get('leanok') for thm in used)] *)
Definition all_leanok (σ : store) (used : list nid) : bool :=
  forallb (λ thm, truthy (get leanok σ thm)) used.

Section propagation.
Context `{Plugin}.

(** What [if proof:] lets through, for [proof] as
    [userdata.get('proved_by')] returns it: [None] is falsy, and so is a
    node without child nodes. *)
Definition truthy_node (proof : option nid) : option nid :=
  p ← proof; if node_bool p then Some p else None.

(** The body of the first loop, for one node.  [used] is the node's own
    list when the key ['uses'] is present, and a fresh empty list
    otherwise; [used.extend] then changes the node's list in the first
    case only. *)
Definition visit_node (project_dochome : string) (node : nid) (σ : store)
  : store :=
  let decls := default [] (get leandecls σ node) in
  let σ := write node (set_lean_urls (lean_url project_dochome <$> decls)) σ in
  let own := get uses σ node in
  let used := default [] own in
  let σ := write node
             (set_can_state (all_leanok σ used
                             && negb (default false (get notready σ node)))) σ in
  match truthy_node (get proved_by σ node) with
  | Some proof =>
      let used := used ++ default [] (get uses σ proof) in
      let σ := if own is Some _ then write node (set_uses used) σ else σ in
      let σ := write node (set_can_prove (all_leanok σ used)) σ in
      write node (set_proved (default false (get leanok σ proof))) σ
  | None =>
      let σ := write node (set_can_prove false) σ in
      write node (set_proved false) σ
  end.

(** [n.userdata.get('proved', False) or item_kind(n) == 'definition'] *)
Definition proved_or_definition (σ : store) (n : nid) : bool :=
  default false (get proved σ n) || bool_decide (item_kind n = "definition").

(** The body of the second loop, for one node. *)
Definition visit_fully_proved (graph : DepGraph) (node : nid) (σ : store)
  : store :=
  write node
    (set_fully_proved
       (forallb (proved_or_definition σ)
          (elements (ancestors graph node ∪ {[node]})))) σ.

(** The two loops over the nodes of one graph, visited in the order [ns]. *)
Definition first_loop (project_dochome : string) (ns : list nid) (σ : store)
  : store :=
  foldl (λ σ node, visit_node project_dochome node σ) σ ns.

Definition second_loop (graph : DepGraph) (ns : list nid) (σ : store)
  : store :=
  foldl (λ σ node, visit_fully_proved graph node σ) σ ns.

Definition process_graph_in (project_dochome : string) (graph : DepGraph)
    (ns : list nid) (σ : store) : store :=
  second_loop graph ns (first_loop project_dochome ns σ).

Definition process_graph (project_dochome : string) (graph : DepGraph)
    (σ : store) : store :=
  process_graph_in project_dochome graph (elements (nodes graph)) σ.

(** The loop over [document.userdata['dep_graph']['graphs'].values()]. *)
Definition make_lean_data (project_dochome : option string)
    (graphs : list DepGraph) (σ : store) : store :=
  foldl (λ σ graph,
           process_graph (default default_dochome project_dochome) graph σ)
        σ graphs.
End propagation.


(** ** Strings *)

(** [s.replace(old, new)] for single characters. *)
Fixpoint replace_char (old new : ascii) (s : string) : string :=
  match s with
  | EmptyString => EmptyString
  | String a s' =>
      String (if decide (a = old) then new else a) (replace_char old new s')
  end.

(** [s.split(sep)[-1]] for a single-character separator: what follows the
    last separator; [cur] is the segment read so far. *)
Fixpoint last_segment_from (sep : ascii) (cur s : string) : string :=
  match s with
  | EmptyString => cur
  | String a s' =>
      if decide (a = sep) then last_segment_from sep "" s'
      else last_segment_from sep (cur +:+ String a "") s'
  end.

Definition last_segment (sep : ascii) (s : string) : string :=
  last_segment_from sep "" s.

(** [s.lstrip(c)] and [s.rstrip(c)] for a single character. *)
Fixpoint lstrip_char (c : ascii) (s : string) : string :=
  match s with
  | String a s' => if decide (a = c) then lstrip_char c s' else s
  | EmptyString => EmptyString
  end.

Fixpoint rstrip_char (c : ascii) (s : string) : string :=
  match s with
  | EmptyString => EmptyString
  | String a s' =>
      match rstrip_char c s' with
      | EmptyString => if decide (a = c) then EmptyString else String a ""
      | r => String a r
      end
  end.

(** ** Documents *)

(** The keys of [document.userdata['dep_graph']] read here.  Dictionaries
    are association lists in insertion order.  The graph plugin binds each
    graph to the section it is the graph of: the key of a graph is any
    hashable object. *)
Record DepGraphData := mkDepGraphData {
  colors : option (list (string * value));
  legend : option (list value);
  graphs : option (list (key * DepGraph));
  nonreducedgraph : option bool
}.

(** The keys of [document.userdata] read or written here. *)
Record Document := mkDocument {
  project_home : option value;
  project_github : option string;
  project_dochome : option string;
  lean_decls : option (list string);
  working_dir : option string;
  dep_graph : option DepGraphData
}.

Inductive level := INFO | WARNING.

(** A Python exception, by the text [str(e)] gives. *)
Abbreviation exn := string (only parsing).

Inductive result (A : Type) : Type :=
  | Ok (a : A)
  | Raise (e : exn).
Arguments Ok {A} a.
Arguments Raise {A} e.

(** ** Markup commands *)

(** The state the commands act on: the node objects, the document's
    userdata and the log. *)
Record State := mkState {
  st_nodes : store;
  st_doc : Document;
  st_log : list (level * string)
}.

Inductive Command :=
  | home (url : value)
  | github (url : string)
  | dochome (url : string)
  | graphcolor (node_type color color_descr : string)
  | cmd_leanok
  | cmd_notready
  | cmd_mathlibok
  | lean (decls : list string)
  | discussion (issue : string).

Definition on_nodes (f : store → store) (s : State) : State :=
  mkState (f (st_nodes s)) (st_doc s) (st_log s).

Definition on_doc (f : Document → Document) (s : State) : State :=
  mkState (st_nodes s) (f (st_doc s)) (st_log s).

Definition warn (msg : string) (s : State) : State :=
  mkState (st_nodes s) (st_doc s) (st_log s ++ [(WARNING, msg)]).

Definition set_project_home (v : value) (doc : Document) : Document :=
  mkDocument (Some v) (project_github doc) (project_dochome doc)
    (lean_decls doc) (working_dir doc) (dep_graph doc).
Definition set_project_github (u : string) (doc : Document) : Document :=
  mkDocument (project_home doc) (Some u) (project_dochome doc)
    (lean_decls doc) (working_dir doc) (dep_graph doc).
Definition set_project_dochome (u : string) (doc : Document) : Document :=
  mkDocument (project_home doc) (project_github doc) (Some u)
    (lean_decls doc) (working_dir doc) (dep_graph doc).
Definition set_lean_decls (l : list string) (doc : Document) : Document :=
  mkDocument (project_home doc) (project_github doc) (project_dochome doc)
    (Some l) (working_dir doc) (dep_graph doc).
Definition set_dep_graph (dg : DepGraphData) (doc : Document) : Document :=
  mkDocument (project_home doc) (project_github doc) (project_dochome doc)
    (lean_decls doc) (working_dir doc) (Some dg).
Definition set_colors (cs : list (string * value)) (dg : DepGraphData)
  : DepGraphData :=
  mkDepGraphData (Some cs) (legend dg) (graphs dg) (nonreducedgraph dg).

Section commands.
Context `{Plugin}.

(** [invoke] or [digest] of a command whose parent node is [parent].
    Only [graphcolor] can raise: it indexes
    [userdata['dep_graph']['colors']]. *)
Definition digest (c : Command) (parent : nid) (s : State) : result State :=
  match c with
  | home url => Ok (on_doc (set_project_home url) s)
  | github url => Ok (on_doc (set_project_github (rstrip_char "/"%char url)) s)
  | dochome url => Ok (on_doc (set_project_dochome url) s)
  | graphcolor node_type color color_descr =>
      match dep_graph (st_doc s) with
      | None => Raise "'dep_graph'"
      | Some dg =>
          match colors dg with
          | None => Raise "'colors'"
          | Some cs =>
              let s := if dict_get node_type cs is Some _ then s
                       else warn ("Unknown node type " +:+ node_type) s in
              Ok (on_doc
                    (set_dep_graph
                       (set_colors
                          (dict_set node_type
                             (VTuple [VStr (strip color);
                                      VStr (strip color_descr)]) cs) dg)) s)
          end
      end
  | cmd_leanok => Ok (on_nodes (write parent (set_leanok true)) s)
  | cmd_notready => Ok (on_nodes (write parent (set_notready true)) s)
  | cmd_mathlibok =>
      let s := on_nodes (write parent (set_leanok true)) s in
      Ok (on_nodes (write parent (set_mathlibok true)) s)
  | lean decls =>
      let decls := strip <$> decls in
      let s := on_nodes (write parent (set_leandecls decls)) s in
      let all_decls := default [] (lean_decls (st_doc s)) in
      Ok (on_doc (set_lean_decls (all_decls ++ decls)) s)
  | discussion issue =>
      Ok (on_nodes (write parent (set_issue (strip (lstrip_char "#"%char issue)))) s)
  end.

(** The loop of the post-parse callback [make_lean_data] on the state;
    it indexes [userdata['dep_graph']['graphs']].  The callback ends with
    [write_lean_decls], which may raise: the nodes then keep what the
    loop wrote, and [step] takes the state the loop leaves in both
    cases. *)
Definition make_lean_data_callback (s : State) : result State :=
  match dep_graph (st_doc s) with
  | None => Raise "'dep_graph'"
  | Some dg =>
      match graphs dg with
      | None => Raise "'graphs'"
      | Some gs =>
          Ok (on_nodes
                (make_lean_data (project_dochome (st_doc s)) gs.*2) s)
      end
  end.

(** One operation that writes node flags. *)
Inductive step : State → State → Prop :=
  | step_digest c parent s s' :
      digest c parent s = Ok s' → step s s'
  | step_make_lean_data s s' :
      make_lean_data_callback s = Ok s' → step s s'.
End commands.

(** ** Colours *)

Definition default_colors : list (string * value) :=
  [ ("mathlib", VTuple [VStr "darkgreen"; VStr "Dark green"]);
    ("stated", VTuple [VStr "green"; VStr "Green"]);
    ("can_state", VTuple [VStr "blue"; VStr "Blue"]);
    ("not_ready", VTuple [VStr "#FFAA33"; VStr "Orange"]);
    ("proved", VTuple [VStr "#9CEC8B"; VStr "Green"]);
    ("can_prove", VTuple [VStr "#A3D6FF"; VStr "Blue"]);
    ("defined", VTuple [VStr "#B0ECA3"; VStr "Light green"]);
    ("fully_proved", VTuple [VStr "#1CAC78"; VStr "Dark green"]) ].

(** [v[0]]: [None] when Python raises. *)
Definition index0 (v : value) : option value :=
  match v with
  | VTuple (x :: _) | VList (x :: _) => Some x
  | VStr (String a _) => Some (VStr (String a ""))
  | _ => None
  end.

(** [colors[key][0]]: [None] when Python raises. *)
Definition color0 (colors : list (string * value)) (key : string)
  : option value :=
  dict_get key colors ≫= index0.

Definition colorizer (colors : list (string * value)) (σ : store) (node : nid)
  : option value :=
  if truthy (get mathlibok σ node) then color0 colors "mathlib"
  else if truthy (get leanok σ node) then color0 colors "stated"
  else if truthy (get can_state σ node) then color0 colors "can_state"
  else if truthy (get notready σ node) then color0 colors "not_ready"
  else Some (VStr "").

Section fill.
Context `{Plugin}.

Definition fillcolorizer (colors : list (string * value)) (σ : store)
    (node : nid) : option value :=
  let stated := truthy (get leanok σ node) in
  let can_state := truthy (get can_state σ node) in
  let can_prove := truthy (get can_prove σ node) in
  let proved := truthy (get proved σ node) in
  let fully_proved := truthy (get fully_proved σ node) in
  fillcolor ←
    (if proved then color0 colors "proved"
     else if can_prove && (can_state || stated)
          then color0 colors "can_prove"
          else Some (VStr ""));
  if bool_decide (item_kind node = "definition") then
    if stated then color0 colors "defined"
    else if can_state then color0 colors "can_prove"
    else Some fillcolor
  else if fully_proved then color0 colors "fully_proved"
  else Some fillcolor.
End fill.

(** ** Subgraphs *)

Section subgraph.
Context `{Plugin}.

(** The method added to the graph class. *)
Definition subgraph (self : DepGraph) (node : nid) : option DepGraph :=
  if decide (node ∈ nodes self) then
    let subgraph_nodes := ancestors self node ∪ {[node]} in
    let inside (e : nat * nat) :=
      e.1 ∈ subgraph_nodes ∧ e.2 ∈ subgraph_nodes in
    Some (mkDepGraph subgraph_nodes
            (filter inside (edges self))
            (filter inside (proof_edges self)))
  else None.
End subgraph.

(** ** Serialization *)

Definition is_scalar (v : value) : bool :=
  match v with
  | VNone | VBool _ | VInt _ | VFloat _ | VStr _ => true
  | _ => false
  end.

(** The items of [node.userdata], each recognised key that is present with
    its Python value, then the other keys.  Python iterates the keys in
    the order of their insertion, which is not kept here: what is stated
    about the exported userdata does not depend on the order of its keys. *)
Definition userdata_items (d : UserData) : list (string * value) :=
  omap (λ x, x)
    [ (λ b, ("leanok", VBool b)) <$> leanok d;
      (λ b, ("mathlibok", VBool b)) <$> mathlibok d;
      (λ b, ("notready", VBool b)) <$> notready d;
      (λ l, ("uses", VList (VNode <$> l))) <$> uses d;
      (λ p, ("proved_by", VNode p)) <$> proved_by d;
      (λ l, ("leandecls", VList (VStr <$> l))) <$> leandecls d;
      (λ s, ("issue", VStr s)) <$> issue d;
      (λ l, ("lean_urls",
             VList ((λ u, VTuple [VStr u.1; VStr u.2]) <$> l))) <$> lean_urls d;
      (λ b, ("can_state", VBool b)) <$> can_state d;
      (λ b, ("can_prove", VBool b)) <$> can_prove d;
      (λ b, ("proved", VBool b)) <$> proved d;
      (λ b, ("fully_proved", VBool b)) <$> fully_proved d ]
  ++ extra d.

(** [node.id] of the node object [n]. *)
Definition id_of (σ : store) (n : nid) : string :=
  from_option node_id "" (σ !! n).

Section serialize.
Context `{Plugin}.

(** One element of a list or tuple value; [None] when it is dropped. *)
Definition serialize_item (σ : store) (item : value) : option value :=
  if is_scalar item then Some item
  else match item with
       | VList l => Some (VList l)
       | VTuple l => Some (VList l)
       | VNode n => Some (VStr (id_of σ n))
       | _ => VStr <$> py_str item
       end.

(** One userdata value; [None] when the key is dropped. *)
Definition serialize_value (σ : store) (v : value) : option value :=
  if is_scalar v then Some v
  else match v with
       | VList l | VTuple l => Some (VList (omap (serialize_item σ) l))
       | VNode n => Some (VStr (id_of σ n))
       | _ => VStr <$> py_str v
       end.

Definition serialize_node (σ : store) (node : nid) : value :=
  let node_data :=
    [("id", VStr (id_of σ node)); ("kind", VStr (item_kind node))] in
  let node_data :=
    match σ !! node ≫= node_caption with
    | Some caption => dict_set "caption" (VStr caption) node_data
    | None =>
        dict_set "title" (VStr (last_segment ":" (id_of σ node))) node_data
    end in
  let items := from_option (userdata_items ∘ userdata) [] (σ !! node) in
  let userdata :=
    foldl (λ acc kv,
             match serialize_value σ kv.2 with
             | Some v => dict_set kv.1 v acc
             | None => acc
             end) [] items in
  VDict (dict_set "userdata" (VDict userdata) node_data).

Definition serialize_edge (σ : store) (e : nat * nat) : value :=
  VTuple [VStr (id_of σ e.1); VStr (id_of σ e.2)].

Definition serialize_graph (σ : store) (graph : DepGraph)
  : list (string * value) :=
  let nodes := serialize_node σ <$> elements (nodes graph) in
  let edges := serialize_edge σ <$> elements (edges graph) in
  let proof_edges := serialize_edge σ <$> elements (proof_edges graph) in
  [ ("nodes", VList nodes);
    ("edges", VList edges);
    ("proof_edges", VList proof_edges);
    ("node_count", VInt (Z.of_nat (length nodes)));
    ("edge_count", VInt (Z.of_nat (length edges)));
    ("proof_edge_count", VInt (Z.of_nat (length proof_edges))) ].

Definition pair_entry (k1 k2 : string) (v : value) : value :=
  match v with
  | VList [a; b] | VTuple [a; b] => VDict [(k1, a); (k2, b)]
  | _ => v
  end.

(** The structure [export_to_json] hands to [json.dump]. *)
Definition export_data (σ : store) (document : Document)
  : list (string * value) :=
  let data :=
    [ ("project_metadata",
       VDict [ ("project_home", default VNone (project_home document));
               ("project_github",
                from_option VStr VNone (project_github document));
               ("project_dochome",
                from_option VStr VNone (project_dochome document)) ]);
      ("lean_decls", VList (VStr <$> default [] (lean_decls document))) ] in
  match dep_graph document with
  | Some dep_graph_data =>
      let colors :=
        foldl (λ acc kv,
                 dict_set kv.1 (pair_entry "color" "description" kv.2) acc)
              [] (default [] (colors dep_graph_data)) in
      let legend :=
        pair_entry "label" "description"
          <$> default [] (legend dep_graph_data) in
      let graphs :=
        foldl (λ acc kv,
                 dict_set kv.1 (VDict (serialize_graph σ kv.2)) acc)
              [] (default [] (graphs dep_graph_data)) in
      dict_set "dep_graph"
        (VDict [ ("colors", VDict colors);
                 ("legend", VList legend);
                 ("graphs", VMap graphs) ]) data
  | None => data
  end.
End serialize.

(** The text [make_lean_data] writes to the file [lean_decls]. *)
Definition lean_decls_text (document : Document) : string :=
  String.concat (String "010" "") (default [] (lean_decls document)).

(** ** What [json.dump] accepts *)

Definition is_str_key (k : key) : bool :=
  if k is KStr _ then true else false.

(** Modelled from Python's documentation of [json]: a value made of [None],
    booleans, numbers, strings, lists, tuples and dictionaries with string
    keys only; a key that is another object makes [json.dump] raise. *)
Fixpoint json_ok (v : value) : bool :=
  match v with
  | VNone | VBool _ | VInt _ | VFloat _ | VStr _ => true
  | VList l | VTuple l => forallb json_ok l
  | VDict d => forallb (λ kv, let '(_, x) := kv in json_ok x) d
  | VMap d => forallb (λ kv, let '(k, x) := kv in is_str_key k && json_ok x) d
  | VNode _ | VObj _ => false
  end.

(** ** Effects: log, files and exceptions *)

(** What a file holds: the exported data, a rendered page, a text, or,
    for a file that was opened for writing and whose write did not
    complete, nothing or a part of what was to be written. *)
Inductive artifact :=
  | Json (data : list (string * value))
  | Html (title : string) (graph : DepGraph)
  | Text (text : string)
  | Incomplete.

Record World := mkWorld {
  w_log : list (level * string);
  w_files : gmap string artifact
}.

(** A computation that logs, writes files, and returns or raises. *)
Definition M (A : Type) : Type := World → result A * World.

Definition ret {A} (a : A) : M A := λ w, (Ok a, w).
Definition raise {A} (e : exn) : M A := λ w, (Raise e, w).
Definition bind {A B} (m : M A) (k : A → M B) : M B :=
  λ w, match m w with
       | (Ok a, w') => k a w'
       | (Raise e, w') => (Raise e, w')
       end.

(** [try: m except Exception as e: h e] *)
Definition try_except {A} (m : M A) (h : exn → M A) : M A :=
  λ w, match m w with
       | (Ok a, w') => (Ok a, w')
       | (Raise e, w') => h e w'
       end.

Definition log_msg (l : level) (msg : string) : M unit :=
  λ w, (Ok tt, mkWorld (w_log w ++ [(l, msg)]) (w_files w)).

(** The file at [path] now holds [a], whatever it held before. *)
Definition put_file (path : string) (a : artifact) : M unit :=
  λ w, (Ok tt, mkWorld (w_log w) (<[path := a]> (w_files w))).

Notation "'let*' x ':=' m 'in' k" := (bind m (λ x, k))
  (at level 10, x name, k at level 200).
Notation "m ;;; k" := (bind m (λ _, k))
  (at level 100, right associativity).

Fixpoint foldM {A B} (f : B → A → M B) (b : B) (l : list A) : M B :=
  match l with
  | [] => ret b
  | a :: l' => let* b' := f b a in foldM f b' l'
  end.

(** What the host does for this package and may fail at ([None]: no
    exception): the text of [Path(p).parent] and of [Path(p) / name],
    opening a file for writing, dumping JSON, writing a text and rendering
    the template into the file that was opened ([stream], [dump]), finding
    and reading the graph template ([Ok None]: no template file), and the
    DOT text of a subgraph ([to_dot], then [tred] when the graph is
    reduced). *)
Class Host := {
  path_parent : string → string;
  path_join : string → string → string;
  open_write : string → option exn;
  dump_json : string → list (string * value) → option exn;
  write_text : string → string → option exn;
  load_template : result (option string);
  to_dot : DepGraph → bool → result string;
  render : string → DepGraph → string → string → string → option exn
}.

Section export.
Context `{Plugin} `{Host}.

(** [open(path, 'w')]: the file is created or emptied, unless opening
    fails. *)
Definition open_file (path : string) : M unit :=
  match open_write path with
  | Some e => raise e
  | None => put_file path Incomplete
  end.

(** The write into the file opened at [path]: when it fails the file
    stays incomplete, otherwise it holds [a]. *)
Definition write_file (path : string) (failure : option exn) (a : artifact)
  : M unit :=
  match failure with
  | Some e => raise e
  | None => put_file path a
  end.

Definition export_to_json (σ : store) (document : Document)
    (output_path : option string) : M string :=
  let output_path :=
    default (path_join (path_parent (default "." (working_dir document)))
               "blueprint_data.json") output_path in
  let data := export_data σ document in
  try_except
    (open_file output_path ;;;
     write_file output_path (dump_json output_path data) (Json data) ;;;
     log_msg INFO ("Exported blueprint data to " +:+ output_path) ;;;
     ret output_path)
    (λ e,
       log_msg WARNING ("Error exporting blueprint data to JSON: " +:+ e) ;;;
       raise e).


(** The end of [make_lean_data]: the file of declaration names. *)
Definition write_lean_decls (document : Document) : M unit :=
  match working_dir document with
  | None => raise "'working-dir'"
  | Some wd =>
      let lean_decls_path := path_join (path_parent wd) "lean_decls" in
      let text := lean_decls_text document in
      open_file lean_decls_path ;;;
      write_file lean_decls_path (write_text lean_decls_path text)
        (Text text)
  end.

Definition safe_id (id : string) : string :=
  replace_char "/" "_" (replace_char ":" "_" id).

(** [graph_target] for the node [node]. *)
Definition page_name (σ : store) (node : nid) : string :=
  "subgraph_" +:+ safe_id (id_of σ node) +:+ ".html".

(** The body of the loop over the nodes of a graph. *)
Definition subgraph_html_node (σ : store) (dg : DepGraphData)
    (graph_tpl : string) (reduce_graph : bool) (graph : DepGraph)
    (files : list string) (node : nid) : M (list string) :=
  match subgraph graph node with
  | Some sub =>
      if decide (1 < size (nodes sub)) then
        let graph_target := page_name σ node in
        let files := files ++ [graph_target] in
        let* dot := (λ w, (to_dot sub reduce_graph, w)) in
        let node_title :=
          default (last_segment ":" (id_of σ node))
                  (σ !! node ≫= node_caption) in
        let subgraph_title := "Dependencies of " +:+ node_title in
        (match legend dg with
         | None => raise "'legend'"
         | Some _ =>
             open_file graph_target ;;;
             write_file graph_target
               (render graph_tpl sub dot subgraph_title graph_target)
               (Html subgraph_title sub)
         end) ;;;
        ret files
      else ret files
  | None => ret files
  end.

(** The body of the [try] block of [make_subgraph_html]. *)
Definition generate_subgraphs (σ : store) (document : Document)
  : M (list string) :=
  match dep_graph document with
  | None => ret []
  | Some dg =>
      let graphs := default [] (graphs dg) in
      if graphs is [] then ret []
      else
        let* tpl := (λ w, (load_template, w)) in
        match tpl with
        | None => ret []
        | Some graph_tpl =>
            let reduce_graph := negb (default false (nonreducedgraph dg)) in
            let* files :=
              foldM (λ files sg,
                       foldM (subgraph_html_node σ dg graph_tpl
                                reduce_graph sg.2)
                             files (elements (nodes sg.2)))
                    [] graphs in
            let total_nodes :=
              sum_list ((λ sg, size (nodes sg.2)) <$> graphs) in
            (if files is [] then ret tt
             else log_msg INFO
                    ("Generated " +:+ pretty (length files)
                     +:+ " subgraph HTML files from "
                     +:+ pretty (length graphs)
                     +:+ " graph(s) with " +:+ pretty total_nodes
                     +:+ " total nodes")) ;;;
            ret files
        end
  end.

Definition make_subgraph_html (σ : store) (document : Document)
  : M (list string) :=
  try_except
    (generate_subgraphs σ document)
    (λ e, log_msg WARNING ("Error generating subgraphs: " +:+ e) ;;; ret []).
End export.

(** ** Properties of stores *)

(** Whenever [mathlibok] is truthy on a node, so is [leanok]. *)
Definition flags_ok (σ : store) : Prop :=
  ∀ n, truthy (get mathlibok σ n) = true → truthy (get leanok σ n) = true.

(** The border colours in the order the colorizer tries them. *)
Definition border_priority : list ((UserData → option bool) * string) :=
  [ (mathlibok, "mathlib"); (leanok, "stated");
    (can_state, "can_state"); (notready, "not_ready") ].

Section soundness.
Context `{Plugin}.

(** A node that is fully proved is proved or is a definition. *)
Definition fully_proved_sound (σ : store) (n : nid) : Prop :=
  get fully_proved σ n = Some true →
  default false (get proved σ n) = true ∨ item_kind n = "definition".
End soundness.

(** ** A reference instance of the interfaces, to run the definitions *)

(** Modelled from the spec: the ancestors of a node, computed by the graph
    plugin and not by this package, are the nodes reachable from it along
    the prerequisite edges.  A walk is bounded by the number of edges. *)
Definition predecessors (g : DepGraph) (n : nid) : gset nat :=
  list_to_set ((elements (filter (λ e : nat * nat, e.2 = n) (edges g))).*1).

Fixpoint ancestors_upto (k : nat) (g : DepGraph) (n : nid) : gset nat :=
  match k with
  | 0 => ∅
  | S k =>
      let pred := predecessors g n in
      pred ∪ ⋃ (ancestors_upto k g <$> elements pred)
  end.

(** Modelled from Python's documentation: [str.strip] on ASCII text removes
    the blanks (tab to carriage return, the four separators and the space)
    at both ends; [str] of [None], of a boolean, of an integer and of a
    string.  The text of the other values is not modelled: the reference
    instance is not run on them. *)
Definition is_blank (a : ascii) : bool :=
  let n := nat_of_ascii a in
  (9 <=? n)%nat && (n <=? 13)%nat || (28 <=? n)%nat && (n <=? 32)%nat.

Fixpoint lstrip_blank (s : string) : string :=
  match s with
  | String a s' => if is_blank a then lstrip_blank s' else s
  | EmptyString => EmptyString
  end.

Fixpoint rstrip_blank (s : string) : string :=
  match s with
  | EmptyString => EmptyString
  | String a s' =>
      match rstrip_blank s' with
      | EmptyString => if is_blank a then EmptyString else String a ""
      | r => String a r
      end
  end.

Definition str_of (v : value) : option string :=
  match v with
  | VNone => Some "None"
  | VBool b => Some (if b then "True" else "False")
  | VInt z => Some (pretty z)
  | VStr s => Some s
  | VObj r => r
  | _ => None
  end.

(** [nonempty] tells the nodes that have child nodes. *)
Definition reference_plugin (kind : nid → string) (nonempty : nid → bool)
  : Plugin :=
  {| ancestors g n := ancestors_upto (size (edges g)) g n;
     item_kind := kind;
     node_bool := nonempty;
     strip s := rstrip_blank (lstrip_blank s);
     py_str := str_of |}.

(** Modelled from Python's documentation, for relative paths without a
    trailing slash: the parent of a path is what precedes its last slash,
    and [.] when it has none; joining a name to [.] gives the name. *)
Fixpoint parent_from (seen : option string) (cur s : string) : string :=
  match s with
  | EmptyString => default "." seen
  | String a s' =>
      if decide (a = "/"%char)
      then parent_from (Some cur) (cur +:+ "/") s'
      else parent_from seen (cur +:+ String a "") s'
  end.

Definition join_path (dir name : string) : string :=
  if decide (dir = ".") then name else dir +:+ "/" +:+ name.

(** A host on which no file operation fails and [json.dump] raises on what
    it does not accept; one on which no file can be opened; and one on
    which files can be opened and every write fails. *)
Definition working_host : Host :=
  {| path_parent p := parent_from None "" p;
     path_join := join_path;
     open_write _ := None;
     dump_json _ data :=
       if json_ok (VDict data) then None
       else Some "keys must be str, int, float, bool or None";
     write_text _ _ := None;
     load_template := Ok (Some "dep_graph.html");
     to_dot _ _ := Ok "digraph {}";
     render _ _ _ _ _ := None |}.



(** ** A sample document *)

(** A theorem [thm:a] that uses the definition [def:b] and whose proof
    uses the lemma [lem:c]; the definition and the proof are formalized. *)
Definition sample_kind (n : nid) : string :=
  if decide (n = 1) then "definition" else "theorem".

Definition sample_plugin : Plugin := reference_plugin sample_kind (λ _, true).

Definition authored (ok : option bool) (used : option (list nid))
    (proof : option nid) : UserData :=
  mkUserData ok None None used proof None None None None None None None [].

Definition sample_store : store :=
  list_to_map
    [ (0, mkNode "thm:a" None (authored None (Some [1]) (Some 2)));
      (1, mkNode "def:b" None (authored (Some true) None None));
      (2, mkNode "proof" None (authored (Some true) (Some [3]) None));
      (3, mkNode "lem:c" None (authored None None None)) ].

Definition sample_graph : DepGraph :=
  mkDepGraph {[0; 1; 3]} {[(1, 0)]} {[(3, 0)]}.

(** A theorem with an empty list of prerequisites whose proof uses a lemma
    that is not formalized, in a graph that is processed twice. *)
Definition revisited_store : store :=
  list_to_map
    [ (0, mkNode "thm:a" None (authored None (Some []) (Some 2)));
      (2, mkNode "proof" None (authored (Some true) (Some [3]) None));
      (3, mkNode "lem:c" None (authored None None None)) ].

Definition revisited_graph : DepGraph := mkDepGraph {[0; 3]} ∅ {[(3, 0)]}.

(** A single definition without a proof. *)
Definition lone_definition : store :=
  list_to_map [ (1, mkNode "def:b" None (authored (Some true) None None)) ].

Definition lone_graph : DepGraph := mkDepGraph {[1]} ∅ ∅.

Definition sample_document (dg : option DepGraphData) : Document :=
  mkDocument None (Some "https://github.com/a/b") None (Some ["Foo.bar"])
    (Some "blueprint/web") dg.

Definition sample_dep_graph : DepGraphData :=
  mkDepGraphData (Some default_colors) (Some [])
    (Some [(KStr "document", sample_graph)]) None.

(** A node that is marked as not ready and carries no other flag. *)
Definition notready_store : store :=
  list_to_map
    [ (5, mkNode "thm:n" None (set_notready true empty_userdata)) ].

(** A sequence on the sample document: the theorem is marked as being in
    Mathlib, the graph is registered, and the pass runs. *)
Definition sample_state : State :=
  mkState sample_store (sample_document (Some sample_dep_graph)) [].

Definition sample_state_marked : State :=
  on_nodes (write 0 (set_mathlibok true))
    (on_nodes (write 0 (set_leanok true)) sample_state).

Definition sample_state_final : State :=
  on_nodes
    (make_lean_data (H:=sample_plugin) None [sample_graph])
    sample_state_marked.

(** ** The legend, the header check mark and the plugin list *)

(** [v[1]]: [None] when Python raises. *)
Definition index1 (v : value) : option value :=
  match v with
  | VTuple (_ :: x :: _) | VList (_ :: x :: _) => Some x
  | VStr (String _ (String b _)) => Some (VStr (String b ""))
  | _ => None
  end.

Definition set_legend (l : list value) (dg : DepGraphData) : DepGraphData :=
  mkDepGraphData (colors dg) (Some l) (graphs dg) (nonreducedgraph dg).

Section legend.
Context `{Plugin}.

(** [f"{v}"]: [None] when Python raises. *)
Definition format_value (v : value) : option string :=
match v with
| VStr s => Some s
| _ => py_str v
end.

(** [f"{colors[key][1]}"] *)
Definition color_descr (colors : list (string * value)) (key : string)
: option string :=
(dict_get key colors ≫= index1) ≫= format_value.

(** The post-parse callback [make_legend] on
  [document.userdata['dep_graph']]: [None] when Python raises, on a
  missing key or index. *)
Definition make_legend (dg : DepGraphData) : option DepGraphData :=
old ← legend dg;
cs ← colors dg;
can_state ← color_descr cs "can_state";
not_ready ← color_descr cs "not_ready";
can_state' ← color_descr cs "can_state";
proved ← color_descr cs "proved";
proved' ← color_descr cs "proved";
fully_proved ← color_descr cs "fully_proved";
mathlib ← color_descr cs "mathlib";
Some (set_legend
        (old ++
         [ VTuple [VStr (can_state +:+ " border");
                   VStr "the <em>statement</em> of this result is ready to be formalized; all prerequisites are done"];
           VTuple [VStr (not_ready +:+ " border");
                   VStr "the <em>statement</em> of this result is not ready to be formalized; the blueprint needs more work"];
           VTuple [VStr (can_state' +:+ " background");
                   VStr "the <em>proof</em> of this result is ready to be formalized; all prerequisites are done"];
           VTuple [VStr (proved +:+ " border");
                   VStr "the <em>statement</em> of this result is formalized"];
           VTuple [VStr (proved' +:+ " background");
                   VStr "the <em>proof</em> of this result is formalized"];
           VTuple [VStr (fully_proved +:+ " background");
                   VStr "the <em>proof</em> of this result and all its ancestors are formalized"];
           VTuple [VStr (mathlib +:+ " border");
                   VStr "this is in Mathlib"] ]) dg).
End legend.

(** The condition of the template [CHECKMARK_TPL]: whether the check mark
    is shown in the header of [obj]. *)
Definition checkmark (σ : store) (obj : nid) : bool :=
  truthy (get leanok σ obj)
  && match get proved_by σ obj with
     | None => true
     | Some proof => truthy (get leanok σ proof)
     end.

(** [ProcessOptions] on the list of plugins of the configuration; [options]
    are the keys of the package options. *)
Definition ensure_plugin (name : string) (plugins : list string)
  : list string :=
  if decide (name ∈ plugins) then plugins else plugins ++ [name].

Definition load_plugins (options plugins : list string) : list string :=
  let plugins := ensure_plugin "plastexdepgraph" plugins in
  if decide ("showmore" ∈ options)
  then ensure_plugin "plastexshowmore" plugins
  else plugins.

(** ** What the serializer can handle *)


(** ** Invariants of the state *)

(** Every colour the colorizers and the legend look up is bound to a pair
    of strings. *)
Definition colors_ok (cs : list (string * value)) : Prop :=
  ∀ k, k ∈ dict_keys default_colors →
       ∃ c d, dict_get k cs = Some (VTuple [VStr c; VStr d]).

Definition state_colors_ok (s : State) : Prop :=
  ∃ dg cs, dep_graph (st_doc s) = Some dg ∧ colors dg = Some cs
           ∧ colors_ok cs.

(** Every declaration attached to a node is in the document's list. *)
Definition decls_listed (s : State) : Prop :=
  ∀ n l d, get leandecls (st_nodes s) n = Some l → d ∈ l →
           d ∈ default [] (lean_decls (st_doc s)).

Section expected.
Context `{Plugin}.

(** The [proved] flag of a node as the authored flags determine it: the
    [leanok] flag of its proof node, when it has one that is not empty. *)
Definition proved_of (σ : store) (m : nid) : bool :=
  from_option (λ p, truthy (get leanok σ p)) false
    (truthy_node (get proved_by σ m)).
End expected.

(** What the first loop writes on a node, its list of prerequisites apart. *)
Definition status (σ : store) (n : nid)
  : option bool * option bool * option bool * option (list (string * string)) :=
  (get can_state σ n, get can_prove σ n, get proved σ n, get lean_urls σ n).

(** [σv] holds the nodes of [σ] with their authored flags, and lists of
    prerequisites that start with the authored ones. *)
Definition same_authored (σ σv : store) : Prop :=
  (∀ m, get leanok σv m = get leanok σ m)
  ∧ (∀ m, get notready σv m = get notready σ m)
  ∧ (∀ m, get proved_by σv m = get proved_by σ m)
  ∧ (∀ m, get leandecls σv m = get leandecls σ m)
  ∧ (∀ m, is_Some (σv !! m) ↔ is_Some (σ !! m))
  ∧ (∀ m, ∃ ext, get uses σv m = (λ l, l ++ ext) <$> get uses σ m).

(** The last character of a string, and a character repeated. *)
Fixpoint last_char (s : string) : option ascii :=
  match s with
  | EmptyString => None
  | String a EmptyString => Some a
  | String _ s' => last_char s'
  end.

Fixpoint repeat_char (c : ascii) (k : nat) : string :=
  match k with
  | 0 => EmptyString
  | S k => String c (repeat_char c k)
  end.

(** A store in which the theorem, its prerequisite and the prerequisite of
    its proof are formalized. *)
Definition ready_store : store :=
  list_to_map
    [ (0, mkNode "thm:a" None (authored None (Some [1]) (Some 2)));
      (1, mkNode "def:b" None (authored (Some true) None None));
      (2, mkNode "proof" None (authored None (Some [1]) None)) ].

Definition ready_graph : DepGraph := mkDepGraph {[0; 1]} {[(1, 0)]} {[(1, 0)]}.

(** Whether a character occurs in a string. *)
Fixpoint has_char (c : ascii) (s : string) : bool :=
  match s with
  | EmptyString => false
  | String a s' => bool_decide (a = c) || has_char c s'
  end.


(** ** The pages of the nodes that have prerequisites *)

Section pages_of_nodes.
Context `{Plugin}.

(** The guard of the page generation: the node has a subgraph, with more
    than one node. *)
Definition has_dependencies (g : DepGraph) (n : nid) : bool :=
  match subgraph g n with
  | Some sub => bool_decide (1 < size (nodes sub))
  | None => false
  end.

(** The names of the pages of the nodes of a graph that pass the guard,
    and of the graphs of a document, in the order of the loops. *)
Definition graph_pages (σ : store) (g : DepGraph) (ns : list nid)
  : list string :=
  page_name σ <$> filter (λ n, has_dependencies g n = true) ns.

Definition document_pages (σ : store) (gs : list (key * DepGraph))
  : list string :=
  gs ≫= λ sg, graph_pages σ sg.2 (elements (nodes sg.2)).
End pages_of_nodes.

(** A file that holds a rendered page. *)
Definition is_page (file : option artifact) : Prop :=
  ∃ title graph, file = Some (Html title graph).

(** The files [fs'] are the files [fs] but for those named in [names],
    which hold rendered pages. *)
Definition wrote_pages (names : list string) (fs fs' : gmap string artifact)
  : Prop :=
  (∀ path, path ∉ names → fs' !! path = fs !! path)
  ∧ (∀ path, path ∈ names → is_page (fs' !! path)).

(** Every file of [fs'] is as in [fs], or is one of [names] and holds a
    rendered page or is incomplete. *)
Definition touched_pages (names : list string) (fs fs' : gmap string artifact)
  : Prop :=
  ∀ path, fs' !! path = fs !! path
          ∨ path ∈ names
            ∧ (is_page (fs' !! path) ∨ fs' !! path = Some Incomplete).

(** The outcome [r] of a part of the page generation that is run in the
    world [w] with the list [files] and has the pages [names] to write:
    nothing is logged; a list that is returned is [files] followed by
    [names], all of them written; after an exception some of them are
    written and one may be incomplete. *)
Definition pages_outcome (names files : list string) (w : World)
    (r : result (list string) * World) : Prop :=
  w_log r.2 = w_log w
  ∧ match r.1 with
    | Ok files' =>
        files' = files ++ names ∧ wrote_pages names (w_files w) (w_files r.2)
    | Raise _ => touched_pages names (w_files w) (w_files r.2)
    end.

(** ** Further sample documents *)


(** Two sections whose graphs share the theorem [thm:a]: its own
    prerequisite [def:b] is formalized, the prerequisite [lem:c] of its
    proof is not. *)
Definition shared_store : store :=
  list_to_map
    [ (0, mkNode "thm:a" None (authored None (Some [1]) (Some 2)));
      (1, mkNode "def:b" None (authored (Some true) None None));
      (2, mkNode "proof" None (authored (Some true) (Some [3]) None));
      (3, mkNode "lem:c" None (authored None None None));
      (4, mkNode "thm:d" None (authored None (Some [0]) None)) ].

Definition first_section : DepGraph := mkDepGraph {[0; 1]} {[(1, 0)]} ∅.

Definition second_section : DepGraph := mkDepGraph {[0; 4]} {[(0, 4)]} ∅.

(** A theorem without prerequisites whose proof environment is empty. *)
Definition empty_proof_store : store :=
  list_to_map
    [ (0, mkNode "thm:a" None (authored None (Some []) (Some 2)));
      (2, mkNode "proof" None (authored None None None)) ].

Definition empty_proof_graph : DepGraph := mkDepGraph {[0]} ∅ ∅.

Definition empty_proof_plugin : Plugin :=
  reference_plugin sample_kind (λ n, bool_decide (n ≠ 2)).



(** * Properties *)

(** ** Reading and writing the store *)

Lemma get_write {A} (f : UserData → option A) g n m (σ : store) :
  get f (write n g σ) m
  = if decide (n = m) then σ !! m ≫= (λ nd, f (g (userdata nd)))
    else get f σ m.
Proof.
  unfold get, write. destruct (decide (n = m)) as [->|Hne].
  - rewrite lookup_alter_eq. by destruct (σ !! m).
  - by rewrite lookup_alter_ne.
Qed.

Lemma get_write_ne {A} (f : UserData → option A) g n m (σ : store) :
  n ≠ m → get f (write n g σ) m = get f σ m.
Proof. intros. rewrite get_write. by case_decide. Qed.

Lemma get_write_frame {A} (f : UserData → option A) g n m (σ : store) :
  (∀ d, f (g d) = f d) → get f (write n g σ) m = get f σ m.
Proof.
  intros Hfg. rewrite get_write. case_decide; [|done].
  unfold get. destruct (σ !! m); simpl; auto.
Qed.

Lemma get_write_set {A} (f : UserData → option A) g n (σ : store) v :
  is_Some (σ !! n) → (∀ d, f (g d) = Some v) →
  get f (write n g σ) n = Some v.
Proof.
  intros [nd Hnd] Hfg. rewrite get_write. case_decide; [|done].
  rewrite Hnd. simpl. auto.
Qed.

Lemma write_lookup_ne n m g (σ : store) :
  n ≠ m → write n g σ !! m = σ !! m.
Proof. intros. unfold write. by rewrite lookup_alter_ne. Qed.

Lemma write_is_Some n m g (σ : store) :
  is_Some (write n g σ !! m) ↔ is_Some (σ !! m).
Proof.
  unfold write. destruct (decide (n = m)) as [->|].
  - rewrite lookup_alter_eq. by rewrite fmap_is_Some.
  - by rewrite lookup_alter_ne.
Qed.

Lemma forallb_pointwise {A} (f g : A → bool) l :
  (∀ x, f x = g x) → forallb f l = forallb g l.
Proof.
  intros Hfg. induction l as [|x l IH]; [done|]. simpl. by rewrite Hfg, IH.
Qed.

Lemma all_leanok_ext (σ σ' : store) l :
  (∀ u, get leanok σ' u = get leanok σ u) → all_leanok σ' l = all_leanok σ l.
Proof.
  intros Heq. unfold all_leanok. induction l as [|u l IH]; [done|].
  simpl. by rewrite Heq, IH.
Qed.

(** ** One visit of the first loop *)

Ltac visit_cases :=
  unfold visit_node; cbv zeta;
  repeat match goal with
         | |- context [match truthy_node ?p with _ => _ end] =>
             destruct (truthy_node p) eqn:?
         | |- context [match get ?f ?s ?n with _ => _ end] =>
             destruct (get f s n) eqn:?
         end.

Lemma all_leanok_write (σ : store) n g l :
  (∀ d, leanok (g d) = leanok d) →
  all_leanok (write n g σ) l = all_leanok σ l.
Proof. intros. apply all_leanok_ext. intros. by apply get_write_frame. Qed.

Ltac visit_reads :=
  repeat first
    [ rewrite (get_write_frame uses) by done
    | rewrite (get_write_frame leanok) by done
    | rewrite (get_write_frame notready) by done
    | rewrite (get_write_frame proved_by) by done
    | rewrite (get_write_frame leandecls) by done
    | rewrite (get_write_frame _ (set_lean_urls _)) by done
    | rewrite (get_write_frame _ (set_can_state _)) by done
    | rewrite (get_write_frame _ (set_can_prove _)) by done
    | rewrite (get_write_frame _ (set_proved _)) by done
    | rewrite all_leanok_write by done ].

Section visit.
Context `{Plugin}.

Lemma truthy_node_Some (proof : option nid) p :
truthy_node proof = Some p ↔ proof = Some p ∧ node_bool p = true.
Proof.
unfold truthy_node. destruct proof as [q|]; simpl; [|by split; [|intros []]].
destruct (node_bool q) eqn:Hq; split.
- intros [= ->]. done.
- by intros [[= ->] _].
- done.
- intros [[= ->] ?]. congruence.
Qed.

Lemma truthy_node_None (proof : option nid) :
truthy_node proof = None
↔ proof = None ∨ ∃ p, proof = Some p ∧ node_bool p = false.
Proof.
unfold truthy_node. destruct proof as [q|]; simpl.
- destruct (node_bool q) eqn:Hq; split; try done.
  + intros [?|(p & [= <-] & ?)]; congruence.
  + intros _. right. by exists q.
- split; [by left|done].
Qed.

Lemma visit_node_lookup_ne d n m (σ : store) :
n ≠ m → visit_node d n σ !! m = σ !! m.
Proof. intros Hne. visit_cases; by rewrite !write_lookup_ne. Qed.

Lemma visit_node_is_Some d n m (σ : store) :
is_Some (visit_node d n σ !! m) ↔ is_Some (σ !! m).
Proof. visit_cases; by rewrite !write_is_Some. Qed.

Lemma visit_node_get_ne {A} (f : UserData → option A) d n m (σ : store) :
n ≠ m → get f (visit_node d n σ) m = get f σ m.
Proof. intros Hne. unfold get. by rewrite visit_node_lookup_ne. Qed.

(** The authored flags are not written by a visit. *)
Lemma visit_node_leanok d n m (σ : store) :
get leanok (visit_node d n σ) m = get leanok σ m.
Proof. visit_cases; by rewrite !get_write_frame. Qed.

Lemma visit_node_mathlibok d n m (σ : store) :
get mathlibok (visit_node d n σ) m = get mathlibok σ m.
Proof. visit_cases; by rewrite !get_write_frame. Qed.

Lemma visit_node_notready d n m (σ : store) :
get notready (visit_node d n σ) m = get notready σ m.
Proof. visit_cases; by rewrite !get_write_frame. Qed.

Lemma visit_node_proved_by d n m (σ : store) :
get proved_by (visit_node d n σ) m = get proved_by σ m.
Proof. visit_cases; by rewrite !get_write_frame. Qed.


Lemma visit_node_can_state d n (σ : store) :
is_Some (σ !! n) →
get can_state (visit_node d n σ) n
= Some (all_leanok σ (default [] (get uses σ n))
        && negb (truthy (get notready σ n))).
Proof.
intros Hn. unfold visit_node; cbv zeta. visit_reads.
destruct (truthy_node (get proved_by σ n)) as [p|];
  [destruct (get uses σ n) as [l|]|];
  simpl; visit_reads; rewrite ?(get_write_frame can_state) by done;
  by apply get_write_set; rewrite ?write_is_Some.
Qed.

Lemma visit_node_proof d n p (σ : store) :
is_Some (σ !! n) → truthy_node (get proved_by σ n) = Some p →
get can_prove (visit_node d n σ) n
= Some (all_leanok σ (default [] (get uses σ n) ++ default [] (get uses σ p)))
∧ get proved (visit_node d n σ) n = Some (truthy (get leanok σ p)).
Proof.
intros Hn Hp. unfold visit_node; cbv zeta. visit_reads. rewrite Hp.
destruct (get uses σ n) as [l|]; simpl; visit_reads.
all: split; [rewrite ?(get_write_frame can_prove) by done|];
  by apply get_write_set; rewrite ?write_is_Some.
Qed.

Lemma visit_node_no_proof d n (σ : store) :
is_Some (σ !! n) → truthy_node (get proved_by σ n) = None →
get can_prove (visit_node d n σ) n = Some false
∧ get proved (visit_node d n σ) n = Some false.
Proof.
intros Hn Hp. unfold visit_node; cbv zeta. visit_reads. rewrite Hp.
split; [rewrite ?(get_write_frame can_prove) by done|];
  by apply get_write_set; rewrite ?write_is_Some.
Qed.

(** What a visit does to the node's own prerequisite list. *)
Lemma visit_node_uses d n (σ : store) :
get uses (visit_node d n σ) n
= match get uses σ n, truthy_node (get proved_by σ n) with
  | Some l, Some p => Some (l ++ default [] (get uses σ p))
  | own, _ => own
  end.
Proof.
unfold visit_node; cbv zeta. visit_reads.
destruct (get uses σ n) as [l|] eqn:Hl,
  (truthy_node (get proved_by σ n)) as [p|];
  simpl; visit_reads; rewrite ?Hl; try done.
assert (is_Some (σ !! n)) as Hn.
{ unfold get in Hl. destruct (σ !! n); [eauto | done]. }
by apply get_write_set; rewrite ?write_is_Some.
Qed.

Lemma visit_node_lean_urls d n (σ : store) :
is_Some (σ !! n) →
get lean_urls (visit_node d n σ) n
= Some (lean_url d <$> default [] (get leandecls σ n)).
Proof.
intros Hn. unfold visit_node; cbv zeta. visit_reads.
destruct (truthy_node (get proved_by σ n)) as [p|];
  [destruct (get uses σ n) as [l|]|];
  simpl; visit_reads; rewrite ?(get_write_frame lean_urls) by done;
  by apply get_write_set; rewrite ?write_is_Some.
Qed.

(** A visit writes [lean_urls], [can_state], [can_prove], [proved] and
  the node's own [uses] list, and nothing else. *)
Lemma visit_node_frame {A} (f : UserData → option A) d n m (σ : store) :
(∀ v x, f (set_lean_urls v x) = f x) →
(∀ v x, f (set_can_state v x) = f x) →
(∀ v x, f (set_uses v x) = f x) →
(∀ v x, f (set_can_prove v x) = f x) →
(∀ v x, f (set_proved v x) = f x) →
get f (visit_node d n σ) m = get f σ m.
Proof. intros. visit_cases; by rewrite !get_write_frame. Qed.

(** ** The loops over one graph *)


Lemma first_loop_snoc d ns n (σ : store) :
  first_loop d (ns ++ [n]) σ = visit_node d n (first_loop d ns σ).
Proof. unfold first_loop. by rewrite foldl_app. Qed.

Lemma first_loop_app d ns1 ns2 (σ : store) :
  first_loop d (ns1 ++ ns2) σ = first_loop d ns2 (first_loop d ns1 σ).
Proof. unfold first_loop. by rewrite foldl_app. Qed.

Lemma first_loop_lookup_notin d ns m (σ : store) :
  m ∉ ns → first_loop d ns σ !! m = σ !! m.
Proof.
  unfold first_loop. revert σ.
  induction ns as [|n ns IH]; intros σ Hm; [done|].
  apply not_elem_of_cons in Hm as [Hne Hm]. simpl.
  rewrite IH by done. by apply visit_node_lookup_ne.
Qed.

Lemma first_loop_get_notin {A} (f : UserData → option A) d ns m (σ : store) :
  m ∉ ns → get f (first_loop d ns σ) m = get f σ m.
Proof. intros. unfold get. by rewrite first_loop_lookup_notin. Qed.

Lemma first_loop_is_Some d ns m (σ : store) :
  is_Some (first_loop d ns σ !! m) ↔ is_Some (σ !! m).
Proof.
  unfold first_loop. revert σ.
  induction ns as [|n ns IH]; intros σ; [done|].
  simpl. by rewrite IH, visit_node_is_Some.
Qed.

(** A field that no visit writes keeps its authored value. *)
Lemma first_loop_frame {A} (f : UserData → option A) d ns (σ : store) :
  (∀ n m σ, get f (visit_node d n σ) m = get f σ m) →
  ∀ m, get f (first_loop d ns σ) m = get f σ m.
Proof.
  intros Hf. unfold first_loop. revert σ.
  induction ns as [|n ns IH]; intros σ m; [done|].
  simpl. by rewrite IH, Hf.
Qed.

Lemma first_loop_leanok d ns m (σ : store) :
  get leanok (first_loop d ns σ) m = get leanok σ m.
Proof. apply first_loop_frame. intros. apply visit_node_leanok. Qed.

Lemma first_loop_mathlibok d ns m (σ : store) :
  get mathlibok (first_loop d ns σ) m = get mathlibok σ m.
Proof. apply first_loop_frame. intros. apply visit_node_mathlibok. Qed.

Lemma first_loop_notready d ns m (σ : store) :
  get notready (first_loop d ns σ) m = get notready σ m.
Proof. apply first_loop_frame. intros. apply visit_node_notready. Qed.

Lemma first_loop_proved_by d ns m (σ : store) :
  get proved_by (first_loop d ns σ) m = get proved_by σ m.
Proof. apply first_loop_frame. intros. apply visit_node_proved_by. Qed.

Lemma first_loop_all_leanok d ns l (σ : store) :
  all_leanok (first_loop d ns σ) l = all_leanok σ l.
Proof. apply all_leanok_ext. intros. apply first_loop_leanok. Qed.

(** The flags a node has after the loop are those of its own visit. *)
Lemma first_loop_get_at {A} (f : UserData → option A) d pre n post (σ : store) :
  n ∉ post →
  get f (first_loop d (pre ++ n :: post) σ) n
  = get f (visit_node d n (first_loop d pre σ)) n.
Proof.
  intros Hn. rewrite first_loop_app. simpl.
  change (foldl _ ?s post) with (first_loop d post s).
  by rewrite first_loop_get_notin.
Qed.

(** The second loop writes [fully_proved] and nothing else. *)
Lemma visit_fully_proved_frame {A} (f : UserData → option A) g n m (σ : store) :
  (∀ b d, f (set_fully_proved b d) = f d) →
  get f (visit_fully_proved g n σ) m = get f σ m.
Proof. intros. unfold visit_fully_proved. by apply get_write_frame. Qed.

Lemma visit_fully_proved_is_Some g n m (σ : store) :
  is_Some (visit_fully_proved g n σ !! m) ↔ is_Some (σ !! m).
Proof. apply write_is_Some. Qed.

Lemma second_loop_snoc g ns n (σ : store) :
  second_loop g (ns ++ [n]) σ = visit_fully_proved g n (second_loop g ns σ).
Proof. unfold second_loop. by rewrite foldl_app. Qed.

Lemma second_loop_frame {A} (f : UserData → option A) g ns m (σ : store) :
  (∀ b d, f (set_fully_proved b d) = f d) →
  get f (second_loop g ns σ) m = get f σ m.
Proof.
  intros Hf. induction ns as [|n ns IH] using rev_ind; [done|].
  by rewrite second_loop_snoc, visit_fully_proved_frame.
Qed.

Lemma second_loop_is_Some g ns m (σ : store) :
  is_Some (second_loop g ns σ !! m) ↔ is_Some (σ !! m).
Proof.
  induction ns as [|n ns IH] using rev_ind; [done|].
  by rewrite second_loop_snoc, visit_fully_proved_is_Some.
Qed.

Lemma proved_or_definition_ext (σ σ' : store) m :
  get proved σ' m = get proved σ m →
  proved_or_definition σ' m = proved_or_definition σ m.
Proof. unfold proved_or_definition. by intros ->. Qed.

Lemma second_loop_fully_proved g ns n (σ : store) :
  n ∈ ns → is_Some (σ !! n) →
  get fully_proved (second_loop g ns σ) n
  = Some (forallb (proved_or_definition σ)
            (elements (ancestors g n ∪ {[n]}))).
Proof.
  intros Hin Hn. induction ns as [|x ns IH] using rev_ind.
  { by apply elem_of_nil in Hin. }
  rewrite second_loop_snoc. unfold visit_fully_proved.
  destruct (decide (x = n)) as [->|Hne].
  - erewrite get_write_set; [|by rewrite second_loop_is_Some|done].
    f_equal. apply forallb_pointwise. intros m.
    apply proved_or_definition_ext. by apply second_loop_frame.
  - rewrite get_write_ne by done. apply IH.
    apply elem_of_app in Hin as [?|Hx]; [done|].
    by apply list_elem_of_singleton in Hx.
Qed.
End visit.

(** ** Derived status of the nodes of a graph *)

Section status.
Context `{Plugin}.

Lemma process_graph_in_get {A} (f : UserData → option A) d g ns m (σ : store) :
  (∀ b x, f (set_fully_proved b x) = f x) →
  get f (process_graph_in d g ns σ) m = get f (first_loop d ns σ) m.
Proof. intros. unfold process_graph_in. by apply second_loop_frame. Qed.

Lemma process_graph_in_is_Some d g ns m (σ : store) :
  is_Some (process_graph_in d g ns σ !! m) ↔ is_Some (σ !! m).
Proof.
  unfold process_graph_in. by rewrite second_loop_is_Some, first_loop_is_Some.
Qed.

(** The prerequisite list of a node that has not been visited yet is
    the authored one. *)
Lemma first_loop_uses_notin d ns m (σ : store) :
  m ∉ ns → get uses (first_loop d ns σ) m = get uses σ m.
Proof. apply first_loop_get_notin. Qed.

End status.

(** ** The whole pass *)

Section pass.
Context `{Plugin}.

Lemma second_loop_lookup_notin g ns m (σ : store) :
  m ∉ ns → second_loop g ns σ !! m = σ !! m.
Proof.
  intros Hm. induction ns as [|x ns IH] using rev_ind; [done|].
  apply not_elem_of_app in Hm as [Hm Hx].
  rewrite second_loop_snoc. unfold visit_fully_proved.
  rewrite write_lookup_ne; [by apply IH|].
  intros ->. apply Hx. by left.
Qed.

Lemma process_graph_get_notin {A} (f : UserData → option A) d g n (σ : store) :
  n ∉ nodes g → get f (process_graph d g σ) n = get f σ n.
Proof.
  intros Hn. assert (n ∉ elements (nodes g)) by by rewrite elem_of_elements.
  unfold get, process_graph, process_graph_in.
  by rewrite second_loop_lookup_notin, first_loop_lookup_notin.
Qed.

Lemma process_graph_is_Some d g m (σ : store) :
  is_Some (process_graph d g σ !! m) ↔ is_Some (σ !! m).
Proof. apply process_graph_in_is_Some. Qed.

(** The value the second loop gives [fully_proved], over the [proved]
    flags of the final store. *)
Lemma process_graph_in_fully_proved d g ns n (σ : store) :
  n ∈ ns → is_Some (σ !! n) →
  get fully_proved (process_graph_in d g ns σ) n
  = Some (forallb (proved_or_definition (process_graph_in d g ns σ))
            (elements (ancestors g n ∪ {[n]}))).
Proof.
  intros Hin Hn. unfold process_graph_in at 1.
  rewrite second_loop_fully_proved; [|done|by rewrite first_loop_is_Some].
  f_equal. apply forallb_pointwise. intros m.
  symmetry. apply proved_or_definition_ext.
  by apply process_graph_in_get.
Qed.

Lemma process_graph_sound d g n (σ : store) :
  n ∈ nodes g ∨ fully_proved_sound σ n →
  fully_proved_sound (process_graph d g σ) n.
Proof.
  intros Hcase. destruct (decide (n ∈ nodes g)) as [Hin|Hout].
  - intros Hfp.
    assert (is_Some (σ !! n)) as Hn.
    { apply (process_graph_is_Some d g). unfold get in Hfp.
      destruct (process_graph d g σ !! n); [by eexists|done]. }
    unfold process_graph in *.
    rewrite process_graph_in_fully_proved in Hfp;
      [|by apply elem_of_elements|done].
    injection Hfp as Hall. rewrite forallb_forall in Hall.
    specialize (Hall n). unfold proved_or_definition in Hall.
    rewrite orb_true_iff, bool_decide_eq_true in Hall. apply Hall.
    apply list_elem_of_In, elem_of_elements, elem_of_union. right.
    by apply elem_of_singleton.
  - destruct Hcase as [?|Hs]; [done|]. unfold fully_proved_sound.
    by rewrite !process_graph_get_notin.
Qed.

Lemma make_lean_data_snoc dh gs g (σ : store) :
  make_lean_data dh (gs ++ [g]) σ
  = process_graph (default default_dochome dh) g (make_lean_data dh gs σ).
Proof. unfold make_lean_data. by rewrite foldl_app. Qed.

(** The authored flags survive the whole pass. *)
Lemma process_graph_leanok d g m (σ : store) :
  get leanok (process_graph d g σ) m = get leanok σ m.
Proof.
  unfold process_graph. rewrite process_graph_in_get by done.
  apply first_loop_leanok.
Qed.

Lemma process_graph_mathlibok d g m (σ : store) :
  get mathlibok (process_graph d g σ) m = get mathlibok σ m.
Proof.
  unfold process_graph. rewrite process_graph_in_get by done.
  apply first_loop_mathlibok.
Qed.

Lemma make_lean_data_leanok dh gs m (σ : store) :
  get leanok (make_lean_data dh gs σ) m = get leanok σ m.
Proof.
  induction gs as [|g gs IH] using rev_ind; [done|].
  by rewrite make_lean_data_snoc, process_graph_leanok.
Qed.

Lemma make_lean_data_mathlibok dh gs m (σ : store) :
  get mathlibok (make_lean_data dh gs σ) m = get mathlibok σ m.
Proof.
  induction gs as [|g gs IH] using rev_ind; [done|].
  by rewrite make_lean_data_snoc, process_graph_mathlibok.
Qed.

(** Apart from the derived fields and the [uses] list, the pass leaves
    every key of every node as it was. *)
Lemma make_lean_data_frame {A} (f : UserData → option A) dh gs m (σ : store) :
  (∀ v x, f (set_lean_urls v x) = f x) →
  (∀ v x, f (set_can_state v x) = f x) →
  (∀ v x, f (set_uses v x) = f x) →
  (∀ v x, f (set_can_prove v x) = f x) →
  (∀ v x, f (set_proved v x) = f x) →
  (∀ v x, f (set_fully_proved v x) = f x) →
  get f (make_lean_data dh gs σ) m = get f σ m.
Proof.
  intros. induction gs as [|g gs IH] using rev_ind; [done|].
  rewrite make_lean_data_snoc. unfold process_graph.
  rewrite process_graph_in_get by done. rewrite <- IH.
  apply first_loop_frame. intros. by apply visit_node_frame.
Qed.

(** C4, amended.  After the pass over the graphs of a document, a
    node of one of the graphs that is fully proved is proved, or it is a
    definition. *)
Theorem fully_proved_implies_proved_or_definition dh gs g n (σ : store) :
  g ∈ gs → n ∈ nodes g →
  get fully_proved (make_lean_data dh gs σ) n = Some true →
  default false (get proved (make_lean_data dh gs σ) n) = true
  ∨ item_kind n = "definition".
Proof.
  intros Hg Hn. change (fully_proved_sound (make_lean_data dh gs σ) n).
  induction gs as [|g' gs IH] using rev_ind.
  { by apply elem_of_nil in Hg. }
  rewrite make_lean_data_snoc. apply process_graph_sound.
  apply elem_of_app in Hg as [Hg|Hg].
  - right. by apply IH.
  - apply list_elem_of_singleton in Hg as <-. by left.
Qed.
End pass.
(** ** The visit that decides the flags of a node *)

Section last_visit.
Context `{Plugin}.

Lemma same_authored_refl (σ : store) : same_authored σ σ.
Proof.
repeat split; try done. intros m. exists []. destruct (get uses σ m); simpl;
  by rewrite ?app_nil_r.
Qed.

Lemma same_authored_trans (σ1 σ2 σ3 : store) :
same_authored σ1 σ2 → same_authored σ2 σ3 → same_authored σ1 σ3.
Proof.
intros (Ha & Hb & Hc & Hd & He & Hf) (Ha' & Hb' & Hc' & Hd' & He' & Hf').
split; [intros; congruence|]. split; [intros; congruence|].
split; [intros; congruence|]. split; [intros; congruence|].
split.
- intros m. by rewrite He', He.
- intros m. destruct (Hf m) as [e1 H1], (Hf' m) as [e2 H2].
  exists (e1 ++ e2). rewrite H2, H1.
  destruct (get uses σ1 m); simpl; by rewrite ?app_assoc.
Qed.

Lemma visit_node_leandecls d n m (σ : store) :
get leandecls (visit_node d n σ) m = get leandecls σ m.
Proof. by apply visit_node_frame. Qed.

Lemma visit_node_same_authored d n (σ : store) :
same_authored σ (visit_node d n σ).
Proof.
split; [intros; apply visit_node_leanok|].
split; [intros; apply visit_node_notready|].
split; [intros; apply visit_node_proved_by|].
split; [intros; apply visit_node_leandecls|].
split; [intros; apply visit_node_is_Some|].
intros m. destruct (decide (n = m)) as [<-|Hne].
- rewrite visit_node_uses.
  destruct (get uses σ n) as [l|]; [|by exists []].
  destruct (truthy_node (get proved_by σ n)) as [p|].
  + by eexists.
  + exists []. simpl. by rewrite app_nil_r.
- exists []. rewrite visit_node_get_ne by done.
  destruct (get uses σ m); simpl; by rewrite ?app_nil_r.
Qed.

Lemma first_loop_same_authored d ns (σ : store) :
same_authored σ (first_loop d ns σ).
Proof.
induction ns as [|x ns IH] using rev_ind; [apply same_authored_refl|].
rewrite first_loop_snoc.
eapply same_authored_trans; [done|apply visit_node_same_authored].
Qed.

Lemma first_loop_last_visit d ns n (σ : store) :
n ∈ ns →
∃ σv, same_authored σ σv
      ∧ status (first_loop d ns σ) n = status (visit_node d n σv) n.
Proof.
intros Hin. induction ns as [|x ns IH] using rev_ind.
{ by apply elem_of_nil in Hin. }
rewrite first_loop_snoc. destruct (decide (x = n)) as [->|Hne].
- exists (first_loop d ns σ). split; [apply first_loop_same_authored|done].
- apply elem_of_app in Hin as [Hin|Hx].
  + destruct (IH Hin) as (σv & Hsame & Hst). exists σv. split; [done|].
    rewrite <- Hst. unfold status. by rewrite !visit_node_get_ne.
  + by apply list_elem_of_singleton in Hx.
Qed.

Lemma make_lean_data_is_Some dh gs m (σ : store) :
is_Some (make_lean_data dh gs σ !! m) ↔ is_Some (σ !! m).
Proof.
induction gs as [|g gs IH] using rev_ind; [done|].
by rewrite make_lean_data_snoc, process_graph_is_Some.
Qed.

Lemma process_graph_same_authored d g (σ : store) :
same_authored σ (process_graph d g σ).
Proof.
destruct (first_loop_same_authored d (elements (nodes g)) σ)
  as (Ha & Hb & Hc & Hd & He & Hf).
unfold process_graph.
split; [intros; by rewrite process_graph_in_get|].
split; [intros; by rewrite process_graph_in_get|].
split; [intros; by rewrite process_graph_in_get|].
split; [intros; by rewrite process_graph_in_get|].
split; [intros; apply process_graph_in_is_Some|].
intros m. destruct (Hf m) as [ext Hext]. exists ext.
by rewrite process_graph_in_get.
Qed.

Lemma make_lean_data_same_authored dh gs (σ : store) :
same_authored σ (make_lean_data dh gs σ).
Proof.
induction gs as [|g gs IH] using rev_ind; [apply same_authored_refl|].
rewrite make_lean_data_snoc.
eapply same_authored_trans; [done|apply process_graph_same_authored].
Qed.

Lemma process_graph_last_visit d g n (σ : store) :
n ∈ nodes g →
∃ σv, same_authored σ σv
      ∧ status (process_graph d g σ) n = status (visit_node d n σv) n.
Proof.
intros Hn.
destruct (first_loop_last_visit d (elements (nodes g)) n σ)
  as (σv & Hsame & Hst); [by apply elem_of_elements|].
exists σv. split; [done|]. rewrite <- Hst.
unfold status, process_graph. by rewrite !process_graph_in_get.
Qed.

(** The flags a node of some graph has after the whole pass are those of
  one visit, in a store that holds the authored flags. *)
Lemma make_lean_data_last_visit dh gs g n (σ : store) :
g ∈ gs → n ∈ nodes g →
∃ σv, same_authored σ σv
      ∧ status (make_lean_data dh gs σ) n
        = status (visit_node (default default_dochome dh) n σv) n.
Proof.
intros Hg Hn. induction gs as [|g' gs IH] using rev_ind.
{ by apply elem_of_nil in Hg. }
rewrite make_lean_data_snoc.
destruct (decide (n ∈ nodes g')) as [Hin|Hout].
- destruct (process_graph_last_visit (default default_dochome dh) g' n
              (make_lean_data dh gs σ) Hin) as (σv & Hsame & Hst).
  exists σv. split; [|done].
  eapply same_authored_trans; [apply make_lean_data_same_authored|done].
- apply elem_of_app in Hg as [Hg|Hg].
  + destruct (IH Hg) as (σv & Hsame & Hst). exists σv. split; [done|].
    rewrite <- Hst. unfold status. by rewrite !process_graph_get_notin.
  + apply list_elem_of_singleton in Hg as <-. done.
Qed.

Lemma status_inv (σ σ' : store) n m :
status σ n = status σ' m →
get can_state σ n = get can_state σ' m
∧ get can_prove σ n = get can_prove σ' m
∧ get proved σ n = get proved σ' m
∧ get lean_urls σ n = get lean_urls σ' m.
Proof. unfold status. by intros [= -> -> -> ->]. Qed.

Lemma get_is_Some {A} (f : UserData → option A) (σ : store) n x :
get f σ n = Some x → is_Some (σ !! n).
Proof. unfold get. destruct (σ !! n); [by eexists|done]. Qed.


Lemma make_lean_data_app dh gs1 gs2 (σ : store) :
make_lean_data dh (gs1 ++ gs2) σ
= make_lean_data dh gs2 (make_lean_data dh gs1 σ).
Proof. unfold make_lean_data. by rewrite foldl_app. Qed.

(** The graphs that do not hold a node leave it as it is. *)
Lemma make_lean_data_get_notin {A} (f : UserData → option A) dh gs n
  (σ : store) :
(∀ g, g ∈ gs → n ∉ nodes g) →
get f (make_lean_data dh gs σ) n = get f σ n.
Proof.
induction gs as [|g gs IH] using rev_ind; [done|]. intros Hn.
rewrite make_lean_data_snoc, process_graph_get_notin.
- apply IH. intros g' Hg'. apply Hn, elem_of_app. by left.
- apply Hn, elem_of_app. right. by left.
Qed.

Lemma proved_of_same_authored (σ σv : store) m :
same_authored σ σv → proved_of σv m = proved_of σ m.
Proof.
intros (Hok & _ & Hby & _). unfold proved_of. rewrite Hby.
destruct (truthy_node (get proved_by σ m)); simpl; [|done].
by rewrite Hok.
Qed.

Lemma visit_node_proved d n (σ : store) :
is_Some (σ !! n) →
get proved (visit_node d n σ) n = Some (proved_of σ n).
Proof.
intros Hn. unfold proved_of.
destruct (truthy_node (get proved_by σ n)) as [p|] eqn:Hp.
- by destruct (visit_node_proof d n p σ Hn Hp) as [_ ->].
- by destruct (visit_node_no_proof d n σ Hn Hp) as [_ ->].
Qed.

(** The [proved] flag of a node of one of the graphs is settled by the
  authored flags, whatever the number of its visits. *)
Lemma make_lean_data_proved dh gs g m (σ : store) :
g ∈ gs → m ∈ nodes g → is_Some (σ !! m) →
get proved (make_lean_data dh gs σ) m = Some (proved_of σ m).
Proof.
intros Hg Hm Hsome.
destruct (make_lean_data_last_visit dh gs g m σ Hg Hm)
  as (σv & Hsame & Hst).
apply status_inv in Hst as (_ & _ & -> & _).
rewrite visit_node_proved by (by apply Hsame).
by rewrite (proved_of_same_authored σ σv).
Qed.



End last_visit.

(** ** The pass on the sample document *)

(** C1.  On a theorem that two graphs share the pass gives a [can_state]
    that is not the one of the authored flags: the prerequisite [def:b] of
    [thm:a] is formalized and [thm:a] is not marked as not ready, and
    [can_state] is true after the first graph and false after the
    second, whose visit finds the prerequisite [lem:c] of the proof in the
    list of [thm:a]. *)
Theorem can_state_of_shared_node :
  all_leanok shared_store (default [] (get uses shared_store 0))
  && negb (truthy (get notready shared_store 0)) = true
  ∧ get can_state
      (make_lean_data (H:=sample_plugin) None [first_section] shared_store) 0
    = Some true
  ∧ get can_state
      (make_lean_data (H:=sample_plugin) None
         [first_section; second_section] shared_store) 0
    = Some false
  ∧ get uses
      (make_lean_data (H:=sample_plugin) None
         [first_section; second_section] shared_store) 0
    = Some [1; 3; 3].
Proof. repeat split; by vm_compute. Qed.

(** An empty proof environment counts as no proof: all the prerequisites
    of the theorem and of its proof, of which there are none, are
    formalized, and [can_prove] is false. *)
Lemma empty_proof_is_no_proof :
  get proved_by empty_proof_store 0 = Some 2
  ∧ all_leanok empty_proof_store
      (default [] (get uses empty_proof_store 0)
       ++ default [] (get uses empty_proof_store 2)) = true
  ∧ get can_prove
      (make_lean_data (H:=empty_proof_plugin) None [empty_proof_graph]
         empty_proof_store) 0
    = Some false.
Proof. repeat split; by vm_compute. Qed.



(** C3.  The pass changes an authored list: the theorem [thm:a] is
    authored with the prerequisite [def:b] alone, and after the pass its
    list also holds [lem:c], the prerequisite of its proof. *)
Theorem make_lean_data_extends_uses :
  get uses sample_store 0 = Some [1]
  ∧ get uses
      (make_lean_data (H:=sample_plugin) None [sample_graph] sample_store) 0
    = Some [1; 3].
Proof. split; by vm_compute. Qed.

(** A later visit of the node reads the extended list: its [can_state],
    true after one pass over the graph, is false after a second one. *)
Lemma revisit_reads_extended_uses :
  get can_state
    (make_lean_data (H:=sample_plugin) None [revisited_graph] revisited_store)
    0 = Some true
  ∧ get can_state
      (make_lean_data (H:=sample_plugin) None
         [revisited_graph; revisited_graph] revisited_store) 0
    = Some false.
Proof. split; by vm_compute. Qed.

(** C4 as stated fails: a definition without a proof is fully proved and
    not proved. *)
Lemma fully_proved_not_proved :
  get fully_proved
    (make_lean_data (H:=sample_plugin) None [lone_graph] lone_definition) 1
  = Some true
  ∧ get proved
      (make_lean_data (H:=sample_plugin) None [lone_graph] lone_definition) 1
    = Some false.
Proof. split; by vm_compute. Qed.

Lemma fully_proved_implies_proved_or_definition_witness :
  sample_graph ∈ [sample_graph] ∧ 0 ∈ nodes sample_graph
  ∧ (default false
       (get proved
          (make_lean_data (H:=sample_plugin) None [sample_graph] sample_store)
          0) = true
     ∨ item_kind (Plugin:=sample_plugin) 0 = "definition").
Proof.
  assert (sample_graph ∈ [sample_graph]) as Hg by (by left).
  assert (0 ∈ nodes sample_graph) as Hn by compute_done.
  split; [done|]. split; [done|].
  apply (fully_proved_implies_proved_or_definition (H:=sample_plugin) None
           [sample_graph] sample_graph 0 sample_store Hg Hn).
  by vm_compute.
Defined.

(** ** Serialization and subgraphs *)

Section graphs.
Context `{Plugin}.

(** C5.  The three counters of a serialized graph are the numbers of
    nodes, edges and proof edges of the graph, and the lengths of the
    three serialized lists. *)
Theorem serialize_graph_counts (σ : store) (g : DepGraph) :
  dict_get "node_count" (serialize_graph σ g)
  = Some (VInt (Z.of_nat (size (nodes g))))
  ∧ dict_get "edge_count" (serialize_graph σ g)
    = Some (VInt (Z.of_nat (size (edges g))))
  ∧ dict_get "proof_edge_count" (serialize_graph σ g)
    = Some (VInt (Z.of_nat (size (proof_edges g))))
  ∧ ∃ ns es ps,
      dict_get "nodes" (serialize_graph σ g) = Some (VList ns)
      ∧ dict_get "edges" (serialize_graph σ g) = Some (VList es)
      ∧ dict_get "proof_edges" (serialize_graph σ g) = Some (VList ps)
      ∧ length ns = size (nodes g)
      ∧ length es = size (edges g)
      ∧ length ps = size (proof_edges g).
Proof.
  unfold serialize_graph. cbn [dict_get]. rewrite !length_fmap.
  repeat (split; [reflexivity|]).
  eexists _, _, _. repeat (split; [reflexivity|]).
  by rewrite !length_fmap.
Qed.

Lemma subgraph_absent g n : n ∉ nodes g → subgraph g n = None.
Proof. intros. unfold subgraph. by case_decide. Qed.

Lemma subgraph_present g n :
  n ∈ nodes g →
  ∃ sub, subgraph g n = Some sub
         ∧ nodes sub = ancestors g n ∪ {[n]}
         ∧ (∀ e, e ∈ edges sub ↔
                 e ∈ edges g ∧ e.1 ∈ nodes sub ∧ e.2 ∈ nodes sub)
         ∧ (∀ e, e ∈ proof_edges sub ↔
                 e ∈ proof_edges g ∧ e.1 ∈ nodes sub ∧ e.2 ∈ nodes sub).
Proof.
  intros Hn. unfold subgraph. case_decide; [|done].
  eexists. split; [done|]. simpl. split; [done|].
  split; intros e; rewrite elem_of_filter; tauto.
Qed.
End graphs.

(** ** Subgraph pages and the export *)

Section effects.
Context `{Plugin} `{Host}.

(** C6.  [subgraph] returns [None] for a node that is not in the graph;
    for a node of the graph it returns the graph on the node and its
    ancestors, with exactly the edges and proof edges of the graph that
    have both ends among these nodes; and the page generation does
    nothing for a node whose subgraph is the node alone: no file, no
    log entry, the list of files unchanged. *)
Theorem subgraph_spec (g : DepGraph) (n : nid) :
  (n ∉ nodes g → subgraph g n = None)
  ∧ (n ∈ nodes g →
     ∃ sub, subgraph g n = Some sub
            ∧ nodes sub = ancestors g n ∪ {[n]}
            ∧ (∀ e, e ∈ edges sub ↔
                    e ∈ edges g ∧ e.1 ∈ nodes sub ∧ e.2 ∈ nodes sub)
            ∧ (∀ e, e ∈ proof_edges sub ↔
                    e ∈ proof_edges g ∧ e.1 ∈ nodes sub ∧ e.2 ∈ nodes sub))
  ∧ (∀ sub, subgraph g n = Some sub → nodes sub = {[n]} →
       ∀ σ dg graph_tpl reduce_graph files w,
         subgraph_html_node σ dg graph_tpl reduce_graph g files n w
         = (Ok files, w)).
Proof.
  split; [apply subgraph_absent|]. split; [apply subgraph_present|].
  intros sub Hsub Hone σ dg tpl rg files w.
  unfold subgraph_html_node. rewrite Hsub, Hone, size_singleton.
  by case_decide; [lia|].
Qed.

(** What the export function does, by what the host answers: it logs a
    warning and raises again when the file cannot be opened or the dump
    fails, the file being left incomplete in the second case. *)
Lemma export_to_json_outcome σ doc out w :
  let path :=
    default (path_join (path_parent (default "." (working_dir doc)))
               "blueprint_data.json") out in
  let data := export_data σ doc in
  let warned e :=
    w_log w ++ [(WARNING, "Error exporting blueprint data to JSON: " +:+ e)] in
  export_to_json σ doc out w
  = match open_write path with
    | Some e => (Raise e, mkWorld (warned e) (w_files w))
    | None =>
        match dump_json path data with
        | Some e =>
            (Raise e,
             mkWorld (warned e) (<[path := Incomplete]> (w_files w)))
        | None =>
            (Ok path,
             mkWorld
               (w_log w ++ [(INFO, "Exported blueprint data to " +:+ path)])
               (<[path := Json data]> (w_files w)))
        end
    end.
Proof.
  intros path data warned.
  unfold export_to_json, try_except, bind, open_file, write_file.
  fold path. fold data. destruct (open_write path) as [e|]; [done|].
  destruct (dump_json path data) as [e|]; [done|].
  simpl. by rewrite insert_insert_eq.
Qed.

Lemma export_to_json_raises σ doc out e w :
  let path :=
    default (path_join (path_parent (default "." (working_dir doc)))
               "blueprint_data.json") out in
  open_write path = None →
  dump_json path (export_data σ doc) = Some e →
  export_to_json σ doc out w
  = (Raise e,
     mkWorld
       (w_log w
        ++ [(WARNING, "Error exporting blueprint data to JSON: " +:+ e)])
       (<[path := Incomplete]> (w_files w))).
Proof.
  intros path Ho He. rewrite export_to_json_outcome. fold path.
  by rewrite Ho, He.
Qed.

Lemma export_to_json_returns σ doc out w :
  let path :=
    default (path_join (path_parent (default "." (working_dir doc)))
               "blueprint_data.json") out in
  open_write path = None →
  dump_json path (export_data σ doc) = None →
  export_to_json σ doc out w
  = (Ok path,
     mkWorld
       (w_log w ++ [(INFO, "Exported blueprint data to " +:+ path)])
       (<[path := Json (export_data σ doc)]> (w_files w))).
Proof.
  intros path Ho He. rewrite export_to_json_outcome. fold path.
  by rewrite Ho, He.
Qed.

(** *** The pages one run of the generation writes *)

Lemma wrote_pages_nil fs : wrote_pages [] fs fs.
Proof. split; [done|]. intros path Hin. by apply elem_of_nil in Hin. Qed.

Lemma touched_pages_refl names fs : touched_pages names fs fs.
Proof. intros path. by left. Qed.

Lemma wrote_pages_app n1 n2 fs fs1 fs2 :
  wrote_pages n1 fs fs1 → wrote_pages n2 fs1 fs2 →
  wrote_pages (n1 ++ n2) fs fs2.
Proof.
  intros [Hf1 Hp1] [Hf2 Hp2]. split.
  - intros path [Hn1 Hn2]%not_elem_of_app. by rewrite Hf2, Hf1.
  - intros path Hin. destruct (decide (path ∈ n2)) as [Hin2|Hout2].
    + by apply Hp2.
    + rewrite Hf2 by done. apply Hp1.
      by apply elem_of_app in Hin as [?|?].
Qed.

Lemma wrote_pages_touched names fs fs' :
  wrote_pages names fs fs' → touched_pages names fs fs'.
Proof.
  intros [Hf Hp] path. destruct (decide (path ∈ names)) as [Hin|Hout].
  - right. split; [done|]. left. by apply Hp.
  - left. by apply Hf.
Qed.

Lemma touched_pages_app n1 n2 fs fs1 fs2 :
  touched_pages n1 fs fs1 → touched_pages n2 fs1 fs2 →
  touched_pages (n1 ++ n2) fs fs2.
Proof.
  intros H1 H2 path. destruct (H2 path) as [Heq|[Hin Hp]].
  - rewrite Heq. destruct (H1 path) as [?|[Hin Hp]]; [by left|].
    right. split; [|done]. apply elem_of_app. by left.
  - right. split; [|done]. apply elem_of_app. by right.
Qed.

Lemma touched_pages_weaken n1 n2 fs fs' :
  touched_pages n1 fs fs' → touched_pages (n1 ++ n2) fs fs'.
Proof.
  intros H1. rewrite <- (app_nil_r n1) in H1.
  intros path. destruct (H1 path) as [?|[Hin Hp]]; [by left|].
  right. split; [|done]. rewrite app_nil_r in Hin.
  apply elem_of_app. by left.
Qed.

Lemma graph_pages_cons σ g n ns :
  graph_pages σ g (n :: ns) = graph_pages σ g [n] ++ graph_pages σ g ns.
Proof.
  unfold graph_pages. rewrite <- fmap_app. f_equal.
  rewrite !filter_cons, filter_nil. by case_decide.
Qed.

Lemma graph_pages_bind σ g ns :
  graph_pages σ g ns = ns ≫= λ n, graph_pages σ g [n].
Proof.
  induction ns as [|n ns IH]; [done|].
  by rewrite graph_pages_cons, IH.
Qed.

Lemma graph_pages_one σ g n :
  graph_pages σ g [n]
  = if has_dependencies g n then [page_name σ n] else [].
Proof.
  unfold graph_pages. rewrite filter_cons, filter_nil.
  destruct (has_dependencies g n); by case_decide.
Qed.

(** One node: nothing for a node that does not pass the guard; otherwise
    its page, complete when nothing fails, and incomplete when the file
    could be opened and the rendering failed. *)
Lemma subgraph_html_node_outcome σ dg tpl rg g files n w :
  pages_outcome (graph_pages σ g [n]) files w
    (subgraph_html_node σ dg tpl rg g files n w).
Proof.
  assert (pages_outcome [] files w (Ok files, w)) as Hskip.
  { split; [done|]. simpl. split; [by rewrite app_nil_r|].
    apply wrote_pages_nil. }
  rewrite graph_pages_one. unfold subgraph_html_node, has_dependencies.
  destruct (subgraph g n) as [sub|]; [|done].
  case_decide as Hsize;
    [rewrite bool_decide_eq_true_2 by done
    |by rewrite bool_decide_eq_false_2].
  unfold bind, open_file, write_file.
  destruct (to_dot sub rg) as [dot|e];
    [|split; [done|apply touched_pages_refl]].
  destruct (legend dg) as [lg|];
    [|split; [done|apply touched_pages_refl]].
  destruct (open_write _) as [e|];
    [split; [done|apply touched_pages_refl]|].
  simpl. destruct (render _ _ _ _ _) as [e|]; simpl.
  - split; [done|]. simpl. intros path.
    destruct (decide (path = page_name σ n)) as [->|Hne].
    + right. split; [by left|]. right. by rewrite lookup_insert_eq.
    + left. by rewrite lookup_insert_ne.
  - split; [done|]. simpl. split; [done|]. split.
    + intros path Hout. rewrite !lookup_insert_ne; [done|..];
        intros <-; apply Hout; by left.
    + intros path ->%list_elem_of_singleton. rewrite lookup_insert_eq.
      by eexists _, _.
Qed.

Lemma foldM_pages_outcome {A} (f : list string → A → M (list string))
    (names : A → list string) (l : list A) :
  (∀ files a w, pages_outcome (names a) files w (f files a w)) →
  ∀ files w, pages_outcome (l ≫= names) files w (foldM f files l w).
Proof.
  intros Hf. induction l as [|a l IH]; intros files w.
  { split; [done|]. simpl. split; [by rewrite app_nil_r|].
    apply wrote_pages_nil. }
  simpl. unfold bind. destruct (Hf files a w) as [Hlog Hout].
  destruct (f files a w) as [[files1|e] w1]; simpl in *.
  - destruct Hout as [-> Hw]. destruct (IH (files ++ names a) w1)
      as [Hlog' Hout'].
    split; [congruence|].
    destruct (foldM f (files ++ names a) l w1) as [[files2|e] w2];
      simpl in *.
    + destruct Hout' as [-> Hw']. split; [by rewrite app_assoc|].
      by apply (wrote_pages_app _ _ _ (w_files w1)).
    + apply (touched_pages_app _ _ _ (w_files w1)); [|done].
      by apply wrote_pages_touched.
  - split; [done|]. by apply touched_pages_weaken.
Qed.

Lemma graph_loop_outcome σ dg tpl rg g files w :
  pages_outcome (graph_pages σ g (elements (nodes g))) files w
    (foldM (subgraph_html_node σ dg tpl rg g) files (elements (nodes g)) w).
Proof.
  rewrite graph_pages_bind. apply foldM_pages_outcome.
  intros. apply subgraph_html_node_outcome.
Qed.

(** The whole generation, with a template: the list returned is the list
    of the pages of the nodes that pass the guard, graph by graph, and all
    of them are written. *)
Lemma generate_subgraphs_pages σ doc dg tpl w :
  dep_graph doc = Some dg → load_template = Ok (Some tpl) →
  let names := document_pages σ (default [] (graphs dg)) in
  match generate_subgraphs σ doc w with
  | (Ok files, w') =>
      files = names ∧ wrote_pages names (w_files w) (w_files w')
      ∧ (files = [] ∧ w_log w' = w_log w
         ∨ files ≠ [] ∧ ∃ msg, w_log w' = w_log w ++ [(INFO, msg)])
  | (Raise e, w') =>
      touched_pages names (w_files w) (w_files w') ∧ w_log w' = w_log w
  end.
Proof.
  intros Hdg Htpl names. unfold generate_subgraphs. rewrite Hdg.
  unfold names. destruct (default [] (graphs dg)) as [|sg gs] eqn:Hgs.
  { split; [done|]. split; [apply wrote_pages_nil|]. by left. }
  unfold bind at 1. rewrite Htpl. unfold bind at 1.
  remember (document_pages σ (sg :: gs)) as pages eqn:Hpages.
  assert (pages_outcome pages [] w
            (foldM
               (λ files (sg : key * DepGraph),
                  foldM (subgraph_html_node σ dg tpl
                           (negb (default false (nonreducedgraph dg)))
                           sg.2) files (elements (nodes sg.2)))
               [] (sg :: gs) w)) as [Hlog Hout].
  { subst pages.
    apply (foldM_pages_outcome _
             (λ sg, graph_pages σ sg.2 (elements (nodes sg.2)))).
    intros. apply graph_loop_outcome. }
  clear Hpages. destruct (foldM _ [] (sg :: gs) w) as [[files|e] w1];
    simpl in Hlog, Hout.
  - destruct Hout as [-> Hw]. simpl.
    destruct pages as [|f fs]; unfold bind, ret, log_msg; simpl.
    + split; [done|]. split; [done|]. by left.
    + split; [done|]. split; [done|]. right. split; [done|].
      eexists. by rewrite Hlog.
  - done.
Qed.

(** The whole generation, whatever it finds: what it returns it wrote,
    and it touches no file but the pages of the document. *)
Lemma generate_subgraphs_touched σ doc w :
  let names :=
    document_pages σ (default [] (dep_graph doc ≫= graphs)) in
  match generate_subgraphs σ doc w with
  | (Ok files, w') =>
      wrote_pages files (w_files w) (w_files w')
      ∧ (∀ f, f ∈ files → f ∈ names)
      ∧ (files = [] ∧ w_log w' = w_log w
         ∨ files ≠ [] ∧ ∃ msg, w_log w' = w_log w ++ [(INFO, msg)])
  | (Raise e, w') =>
      touched_pages names (w_files w) (w_files w') ∧ w_log w' = w_log w
  end.
Proof.
  intros names.
  assert (wrote_pages [] (w_files w) (w_files w)
          ∧ (∀ f, f ∈ @nil string → f ∈ names)
          ∧ (@nil string = [] ∧ w_log w = w_log w
             ∨ @nil string ≠ []
               ∧ ∃ msg, w_log w = w_log w ++ [(INFO, msg)])) as Hnothing.
  { split; [apply wrote_pages_nil|]. split; [|by left].
    intros f Hf. by apply elem_of_nil in Hf. }
  destruct (dep_graph doc) as [dg|] eqn:Hdg;
    [|unfold generate_subgraphs; by rewrite Hdg].
  destruct load_template as [[tpl|]|e] eqn:Htpl.
  - pose proof (generate_subgraphs_pages σ doc dg tpl w Hdg Htpl) as Hgen.
    simpl in names. destruct (generate_subgraphs σ doc w) as [[files|e] w'].
    + destruct Hgen as (-> & Hw & Hlog). by split.
    + done.
  - unfold generate_subgraphs. rewrite Hdg.
    destruct (default [] (graphs dg)); [done|].
    unfold bind. by rewrite Htpl.
  - unfold generate_subgraphs. rewrite Hdg.
    destruct (default [] (graphs dg)); [done|].
    unfold bind. rewrite Htpl. split; [apply touched_pages_refl|done].
Qed.

End effects.

Lemma subgraph_spec_witness :
  (7 ∉ nodes sample_graph) ∧ 0 ∈ nodes sample_graph
  ∧ subgraph (H:=sample_plugin) sample_graph 7 = None
  ∧ (∃ sub, subgraph (H:=sample_plugin) sample_graph 0 = Some sub
            ∧ nodes sub = {[0; 1]})
  ∧ subgraph_html_node (H:=sample_plugin) (H0:=working_host) sample_store
      sample_dep_graph "dep_graph.html" true sample_graph [] 1
      (mkWorld [] ∅)
    = (Ok [], mkWorld [] ∅).
Proof.
  assert (7 ∉ nodes sample_graph) as Hout by compute_done.
  assert (0 ∈ nodes sample_graph) as Hin by compute_done.
  split; [done|]. split; [done|].
  split; [|split].
  - by apply (subgraph_spec (H:=sample_plugin) (H0:=working_host)
                sample_graph 7).
  - destruct (subgraph_spec (H:=sample_plugin) (H0:=working_host)
                sample_graph 0) as (_ & Hsub & _).
    destruct (Hsub Hin) as (sub & Hs & Hnodes & _).
    exists sub. split; [done|]. rewrite Hnodes. by vm_compute.
  - destruct (subgraph_spec (H:=sample_plugin) (H0:=working_host)
                sample_graph 1) as (_ & _ & Hskip).
    eapply Hskip; by vm_compute.
Defined.



(** ** Colours *)

Lemma dict_get_set_ne {A} (k k' : string) (v : A) d :
  k ≠ k' → dict_get k (dict_set k' v d) = dict_get k d.
Proof.
  intros Hne. induction d as [|[k0 v0] d IH]; simpl.
  - by case_decide.
  - destruct (decide (k' = k0)) as [->|]; simpl; repeat case_decide;
      congruence.
Qed.

Lemma color0_set_ne colors k k' v :
  k ≠ k' → color0 (dict_set k' v colors) k = color0 colors k.
Proof. intros. unfold color0. by rewrite dict_get_set_ne. Qed.

Section colours.
Context `{Plugin}.

(** C8.  The border colour is that of the first flag, in the order
    [mathlibok], [leanok], [can_state], [notready], that is truthy on
    the node, and the empty string when none is.  On a definition the
    fill colour depends neither on [fully_proved] nor on the colour
    registered for it, and with the package's colours it is never that
    colour.  A node with [notready] and no other truthy flag gets the
    colour registered for nodes that are not ready as border, and the
    empty fill. *)
Theorem colorizers_spec (colors : list (string * value)) (σ : store)
    (node : nid) :
  colorizer colors σ node
  = match
      find (λ fk, truthy (get fk.1 σ node)) border_priority
    with
    | Some fk => color0 colors fk.2
    | None => Some (VStr "")
    end
  ∧ (item_kind node = "definition" →
     (∀ b v,
        fillcolorizer (dict_set "fully_proved" v colors)
          (write node (set_fully_proved b) σ) node
        = fillcolorizer colors σ node)
     ∧ fillcolorizer default_colors σ node ≠ color0 default_colors "fully_proved")
  ∧ (truthy (get notready σ node) = true →
     truthy (get mathlibok σ node) = false →
     truthy (get leanok σ node) = false →
     truthy (get can_state σ node) = false →
     truthy (get can_prove σ node) = false →
     truthy (get proved σ node) = false →
     truthy (get fully_proved σ node) = false →
     colorizer colors σ node = color0 colors "not_ready"
     ∧ colorizer default_colors σ node = Some (VStr "#FFAA33")
     ∧ fillcolorizer colors σ node = Some (VStr "")).
Proof.
  split; [|split].
  - unfold colorizer, border_priority. simpl.
    by repeat case_match.
  - intros Hdef. split.
    + intros b v. unfold fillcolorizer.
      rewrite ?(get_write_frame leanok), ?(get_write_frame can_state),
        ?(get_write_frame can_prove), ?(get_write_frame proved) by done.
      rewrite ?(color0_set_ne _ "proved"), ?(color0_set_ne _ "can_prove"),
        ?(color0_set_ne _ "defined") by done.
      by rewrite bool_decide_eq_true_2.
    + unfold fillcolorizer. rewrite bool_decide_eq_true_2 by done.
      by repeat case_match.
  - intros Hnr Hml Hok Hcs Hcp Hpr Hfp.
    unfold colorizer, fillcolorizer.
    rewrite Hnr, Hml, Hok, Hcs, Hcp, Hpr, Hfp. simpl.
    by case_bool_decide.
Qed.
End colours.

Lemma colorizers_spec_witness :
  colorizer default_colors notready_store 5 = Some (VStr "#FFAA33")
  ∧ fillcolorizer (H:=sample_plugin) default_colors notready_store 5
    = Some (VStr "")
  ∧ fillcolorizer (H:=sample_plugin) default_colors
      (make_lean_data (H:=sample_plugin) None [lone_graph] lone_definition) 1
    ≠ Some (VStr "#1CAC78").
Proof.
  destruct (colorizers_spec (H:=sample_plugin) default_colors notready_store 5)
    as (_ & _ & Hnotready).
  destruct Hnotready as (_ & Hborder & Hfill); [by vm_compute..|].
  split; [exact Hborder|]. split; [exact Hfill|].
  destruct (colorizers_spec (H:=sample_plugin) default_colors
              (make_lean_data (H:=sample_plugin) None [lone_graph]
                 lone_definition) 1) as (_ & Hdef & _).
  destruct Hdef as [_ Hne]; [by vm_compute|]. exact Hne.
Defined.

(** ** The exported structure *)

Section exported.
Context `{Plugin} `{Host}.

(** C9.  Without a dependency graph in the document's userdata the
    exported structure has the two keys [project_metadata] and
    [lean_decls] and no other; with one, it has the third key
    [dep_graph], bound to a dictionary of [colors], [legend] and
    [graphs].  This structure is what a successful export writes. *)
Theorem export_data_keys (σ : store) (doc : Document) :
  (dep_graph doc = None →
   dict_keys (export_data σ doc) = ["project_metadata"; "lean_decls"]
   ∧ dict_get "dep_graph" (export_data σ doc) = None)
  ∧ (∀ dg, dep_graph doc = Some dg →
       dict_keys (export_data σ doc)
       = ["project_metadata"; "lean_decls"; "dep_graph"]
       ∧ ∃ cs lg gs,
           dict_get "dep_graph" (export_data σ doc)
           = Some (VDict [ ("colors", VDict cs); ("legend", VList lg);
                           ("graphs", VMap gs) ]))
  ∧ (∀ out w,
       let path :=
         default (path_join (path_parent (default "." (working_dir doc)))
                    "blueprint_data.json") out in
       open_write path = None →
       dump_json path (export_data σ doc) = None →
       ∃ w', export_to_json σ doc out w = (Ok path, w')
             ∧ w_files w' = <[path := Json (export_data σ doc)]> (w_files w)).
Proof.
  split; [|split].
  - intros Hnone. unfold export_data. by rewrite Hnone.
  - intros dg Hdg. unfold export_data. rewrite Hdg.
    split; [done|]. by eexists _, _, _.
  - intros out w path Hopen Hdump. eexists. split.
    + by apply export_to_json_returns.
    + done.
Qed.
End exported.

Lemma export_data_keys_witness :
  dict_keys
    (export_data (H:=sample_plugin) sample_store (sample_document None))
  = ["project_metadata"; "lean_decls"]
  ∧ dict_keys
      (export_data (H:=sample_plugin) sample_store
         (sample_document (Some sample_dep_graph)))
    = ["project_metadata"; "lean_decls"; "dep_graph"].
Proof.
  destruct (export_data_keys (H:=sample_plugin) (H0:=working_host)
              sample_store (sample_document None)) as (Hno & _).
  destruct (export_data_keys (H:=sample_plugin) (H0:=working_host)
              sample_store (sample_document (Some sample_dep_graph)))
    as (_ & Hyes & _).
  split.
  - by apply Hno.
  - by apply (Hyes sample_dep_graph).
Defined.

(** ** Authored flags *)

Lemma flags_ok_frame (σ : store) n g :
  (∀ d, leanok (g d) = leanok d) → (∀ d, mathlibok (g d) = mathlibok d) →
  flags_ok σ → flags_ok (write n g σ).
Proof.
  intros Hl Hm Hok m. rewrite !get_write_frame by done. apply Hok.
Qed.

Lemma flags_ok_leanok (σ : store) n :
  flags_ok σ → flags_ok (write n (set_leanok true) σ).
Proof.
  intros Hok m. rewrite (get_write_frame mathlibok) by done.
  rewrite get_write. case_decide; [|apply Hok]. subst m.
  unfold get. by destruct (σ !! n).
Qed.

Lemma flags_ok_mathlibok (σ : store) n :
  flags_ok σ →
  flags_ok (write n (set_mathlibok true) (write n (set_leanok true) σ)).
Proof.
  intros Hok m. destruct (decide (n = m)) as [->|Hne].
  - unfold get, write. rewrite !lookup_alter_eq. by destruct (σ !! m).
  - rewrite !get_write_ne by done. apply Hok.
Qed.

Section invariant.
Context `{Plugin}.

Lemma digest_flags_ok c parent s s' :
  digest c parent s = Ok s' →
  flags_ok (st_nodes s) → flags_ok (st_nodes s').
Proof.
  intros Hd Hok. destruct c; simpl in Hd.
  - by injection Hd as <-.
  - by injection Hd as <-.
  - by injection Hd as <-.
  - destruct (dep_graph (st_doc s)) as [dg|]; [|done].
    destruct (colors dg) as [cs|]; [|done].
    injection Hd as <-. simpl. by destruct (dict_get node_type cs).
  - injection Hd as <-. by apply flags_ok_leanok.
  - injection Hd as <-. by apply flags_ok_frame.
  - injection Hd as <-. by apply flags_ok_mathlibok.
  - injection Hd as <-. by apply flags_ok_frame.
  - injection Hd as <-. by apply flags_ok_frame.
Qed.

Lemma make_lean_data_flags_ok s s' :
  make_lean_data_callback s = Ok s' →
  flags_ok (st_nodes s) → flags_ok (st_nodes s').
Proof.
  unfold make_lean_data_callback. intros Hc Hok.
  destruct (dep_graph (st_doc s)) as [dg|]; [|done].
  destruct (graphs dg) as [gs|]; [|done].
  injection Hc as <-. intros n. simpl.
  rewrite make_lean_data_leanok, make_lean_data_mathlibok. apply Hok.
Qed.

(** C10.  Every sequence of markup commands and runs of the status
    pass, applied to nodes on which [mathlibok] is only set together
    with [leanok], leaves [leanok] set on each node that has [mathlibok]
    set. *)
Theorem mathlibok_implies_leanok (s s' : State) :
  rtc step s s' → flags_ok (st_nodes s) → flags_ok (st_nodes s').
Proof.
  induction 1 as [s|s1 s2 s3 Hstep _ IH]; [done|].
  intros Hok. apply IH. destruct Hstep as [c parent s1 s2 Hd|s1 s2 Hc].
  - by apply (digest_flags_ok c parent s1).
  - by apply (make_lean_data_flags_ok s1 s2).
Qed.
End invariant.

(** A sequence on the sample document keeps the invariant. *)
Lemma mathlibok_implies_leanok_witness :
  rtc (step (H:=sample_plugin)) sample_state sample_state_final
  ∧ flags_ok (st_nodes sample_state)
  ∧ get mathlibok (st_nodes sample_state_final) 0 = Some true
  ∧ truthy (get leanok (st_nodes sample_state_final) 0) = true.
Proof.
  assert (rtc (step (H:=sample_plugin)) sample_state sample_state_final)
    as Hsteps.
  { eapply rtc_l; [by apply (step_digest cmd_mathlibok 0)|].
    apply rtc_once. by apply step_make_lean_data. }
  assert (flags_ok (st_nodes sample_state)) as Hok.
  { intros n. unfold sample_state, get. simpl.
    destruct (sample_store !! n) as [nd|] eqn:Hn; [|done].
    unfold sample_store in Hn. simpl in Hn.
    repeat (rewrite lookup_insert in Hn; case_decide;
            [injection Hn as <-; by vm_compute|]).
    by rewrite lookup_empty in Hn. }
  split; [done|]. split; [done|]. split; [by vm_compute|].
  apply (mathlibok_implies_leanok (H:=sample_plugin) sample_state
           sample_state_final Hsteps Hok 0).
  by vm_compute.
Defined.
(** * Further properties *)

(** ** What the flags say after the pass *)

Section flags_after.
Context `{Plugin}.

(** The flags of a node after the two loops over a graph that holds it
  once, in terms of the store the loops start from. *)
Lemma process_graph_in_status d g pre n post (σ : store) :
NoDup (pre ++ n :: post) → is_Some (σ !! n) →
let σ' := process_graph_in d g (pre ++ n :: post) σ in
let used := default [] (get uses σ n) in
get can_state σ' n
= Some (all_leanok σ used && negb (truthy (get notready σ n)))
∧ match truthy_node (get proved_by σ n) with
  | Some proof =>
      get can_prove σ' n
      = Some (all_leanok σ
                (used ++ default [] (get uses (first_loop d pre σ) proof)))
      ∧ get proved σ' n = Some (truthy (get leanok σ proof))
  | None =>
      get can_prove σ' n = Some false ∧ get proved σ' n = Some false
  end.
Proof.
intros Hnd Hn σ' used.
apply NoDup_app in Hnd as (_ & Hpre & Hnd).
apply NoDup_cons in Hnd as [Hpost _].
assert (n ∉ pre) as Hnpre by (intros Hin; apply (Hpre n Hin); left).
assert (is_Some (first_loop d pre σ !! n)) as Hn'
  by by rewrite first_loop_is_Some.
split.
- unfold σ'. rewrite process_graph_in_get by done.
  rewrite first_loop_get_at by done.
  rewrite visit_node_can_state by done.
  by rewrite first_loop_all_leanok, first_loop_notready,
    first_loop_uses_notin.
- rewrite <- (first_loop_proved_by d pre n σ).
  destruct (truthy_node (get proved_by (first_loop d pre σ) n))
    as [p|] eqn:Hp.
  + destruct (visit_node_proof d n p _ Hn' Hp) as [Hcp Hpr].
    unfold σ'. rewrite !process_graph_in_get by done.
    rewrite !first_loop_get_at by done. rewrite Hcp, Hpr.
    rewrite first_loop_all_leanok, first_loop_leanok.
    by rewrite (first_loop_uses_notin d pre n).
  + destruct (visit_node_no_proof d n _ Hn' Hp) as [Hcp Hpr].
    unfold σ'. rewrite !process_graph_in_get by done.
    by rewrite !first_loop_get_at.
Qed.

Lemma make_lean_data_all_leanok dh gs l (σ : store) :
all_leanok (make_lean_data dh gs σ) l = all_leanok σ l.
Proof. apply all_leanok_ext. intros. apply make_lean_data_leanok. Qed.

(** X1.  After the pass over the graphs of a document, a node of one of
  the graphs whose proof can be formalized and that is not marked as not
  ready has a statement that can be formalized. *)
Theorem can_prove_implies_can_state dh gs g n (σ : store) :
g ∈ gs → n ∈ nodes g →
get can_prove (make_lean_data dh gs σ) n = Some true →
truthy (get notready σ n) = false →
get can_state (make_lean_data dh gs σ) n = Some true.
Proof.
intros Hg Hn Hcp Hnr.
assert (is_Some (σ !! n)) as Hsome.
{ eapply make_lean_data_is_Some, get_is_Some, Hcp. }
destruct (make_lean_data_last_visit dh gs g n σ Hg Hn)
  as (σv & (Hok & Hnot & Hby & _ & Hdom & Hext) & Hst).
apply status_inv in Hst as (Hcs & Hcp' & _ & _).
rewrite Hcs. rewrite Hcp' in Hcp.
assert (is_Some (σv !! n)) as Hv by by apply Hdom.
rewrite visit_node_can_state by done.
rewrite Hnot, Hnr, andb_true_r. f_equal.
destruct (truthy_node (get proved_by σv n)) as [p|] eqn:Hp.
- destruct (visit_node_proof (default default_dochome dh) n p σv Hv Hp)
    as [Hall _].
  rewrite Hall in Hcp. injection Hcp as Hcp.
  unfold all_leanok in *. rewrite forallb_app in Hcp.
  by apply andb_true_iff in Hcp as [? _].
- destruct (visit_node_no_proof (default default_dochome dh) n σv Hv Hp)
    as [Hf _]. congruence.
Qed.

(** X2.  After the pass, however often a node was visited, its [proved]
  flag is the [leanok] flag of its proof node when that node is not
  empty, and it is false, like [can_prove], for a node without a proof
  node and for one whose proof node is empty. *)
Theorem proved_is_leanok_of_proof dh gs g n (σ : store) :
g ∈ gs → n ∈ nodes g → is_Some (σ !! n) →
match get proved_by σ n with
| Some proof =>
    get proved (make_lean_data dh gs σ) n
    = Some (node_bool proof && truthy (get leanok σ proof))
    ∧ (node_bool proof = false →
       get can_prove (make_lean_data dh gs σ) n = Some false)
| None =>
    get proved (make_lean_data dh gs σ) n = Some false
    ∧ get can_prove (make_lean_data dh gs σ) n = Some false
end.
Proof.
intros Hg Hn Hsome.
destruct (make_lean_data_last_visit dh gs g n σ Hg Hn)
  as (σv & (Hok & Hnot & Hby & _ & Hdom & Hext) & Hst).
apply status_inv in Hst as (_ & Hcp & Hpr & _).
assert (is_Some (σv !! n)) as Hv by by apply Hdom.
rewrite Hpr, Hcp, <- Hby.
destruct (truthy_node (get proved_by σv n)) as [p|] eqn:Hp.
- destruct (visit_node_proof (default default_dochome dh) n p σv Hv Hp)
    as [_ ->].
  apply truthy_node_Some in Hp as [-> Hb]. rewrite Hb, Hok.
  split; [done|]. congruence.
- destruct (visit_node_no_proof (default default_dochome dh) n σv Hv Hp)
    as [-> ->].
  apply truthy_node_None in Hp as [->|(p & -> & ->)]; by split.
Qed.

(** X3.  After the pass the two readiness flags are never too
  optimistic: when [can_state] is true on a node of a graph, the node is
  not marked as not ready and every prerequisite it was authored with has
  [leanok]; when [can_prove] is true, the node has a proof node that is
  not empty, and every prerequisite the node and the proof node were
  authored with has [leanok]. *)
Theorem readiness_sound dh gs g n (σ : store) :
g ∈ gs → n ∈ nodes g →
(get can_state (make_lean_data dh gs σ) n = Some true →
 truthy (get notready σ n) = false
 ∧ ∀ u, u ∈ default [] (get uses σ n) → truthy (get leanok σ u) = true)
∧ (get can_prove (make_lean_data dh gs σ) n = Some true →
   ∃ proof, get proved_by σ n = Some proof ∧ node_bool proof = true
            ∧ ∀ u, u ∈ default [] (get uses σ n)
                       ++ default [] (get uses σ proof) →
                   truthy (get leanok σ u) = true).
Proof.
intros Hg Hn.
destruct (make_lean_data_last_visit dh gs g n σ Hg Hn)
  as (σv & (Hok & Hnot & Hby & _ & Hdom & Hext) & Hst).
apply status_inv in Hst as (Hcs & Hcp & _ & _).
assert (∀ m u, u ∈ default [] (get uses σ m) →
               u ∈ default [] (get uses σv m)) as Hsub.
{ intros m u Hu. destruct (Hext m) as [ext ->].
  destruct (get uses σ m); simpl in *; [|done].
  apply elem_of_app. by left. }
assert (∀ l u, all_leanok σv l = true → u ∈ l →
               truthy (get leanok σ u) = true) as Hall.
{ intros l u Hl Hu. unfold all_leanok in Hl.
  rewrite forallb_forall in Hl. rewrite <- Hok.
  by apply Hl, list_elem_of_In. }
split.
- intros Htrue. rewrite Hcs in Htrue.
  assert (is_Some (σv !! n)) as Hv.
  { apply Hdom. eapply make_lean_data_is_Some, get_is_Some.
    by rewrite Hcs. }
  rewrite visit_node_can_state in Htrue by done.
  injection Htrue as Htrue. apply andb_true_iff in Htrue as [Hl Hnr].
  split.
  + rewrite <- Hnot. by apply negb_true_iff.
  + intros u Hu. eapply Hall; [done|]. by apply Hsub.
- intros Htrue. rewrite Hcp in Htrue.
  assert (is_Some (σv !! n)) as Hv.
  { apply Hdom. eapply make_lean_data_is_Some, get_is_Some.
    by rewrite Hcp. }
  rewrite <- Hby.
  destruct (truthy_node (get proved_by σv n)) as [p|] eqn:Hp.
  + destruct (visit_node_proof (default default_dochome dh) n p σv Hv Hp)
      as [Hv' _].
    apply truthy_node_Some in Hp as [Hp Hb].
    exists p. split; [done|]. split; [done|].
    rewrite Hv' in Htrue. injection Htrue as Htrue.
    intros u Hu. eapply Hall; [done|].
    apply elem_of_app in Hu as [Hu|Hu]; apply elem_of_app;
      [left|right]; by apply Hsub.
  + destruct (visit_node_no_proof (default default_dochome dh) n σv Hv Hp)
      as [Hf _]. congruence.
Qed.

(** X22.  The status the pass gives a node [n] that one graph of the
  document holds and no other: [can_state] is true exactly when every
  prerequisite [n] was authored with has a truthy [leanok] and [n] is
  not marked as not ready; with a proof node that is not empty,
  [proved] is the [leanok] flag of the proof node and, when the proof
  node is not a node of a graph processed so far, [can_prove] is true
  exactly when every prerequisite [n] and the proof node were authored
  with has a truthy [leanok]; otherwise both are false.  A prerequisite
  without the flag makes [can_state] false. *)
Theorem status_of_node_visited_once dh gs1 g gs2 n (σ : store) :
n ∈ nodes g → (∀ g', g' ∈ gs1 ++ gs2 → n ∉ nodes g') → is_Some (σ !! n) →
let σ' := make_lean_data dh (gs1 ++ g :: gs2) σ in
let used := default [] (get uses σ n) in
get can_state σ' n
= Some (all_leanok σ used && negb (truthy (get notready σ n)))
∧ match truthy_node (get proved_by σ n) with
  | Some proof =>
      get proved σ' n = Some (truthy (get leanok σ proof))
      ∧ ((∀ g', g' ∈ gs1 ++ [g] → proof ∉ nodes g') →
         get can_prove σ' n
         = Some (all_leanok σ (used ++ default [] (get uses σ proof))))
  | None =>
      get can_prove σ' n = Some false ∧ get proved σ' n = Some false
  end
∧ (∀ u, u ∈ used → get leanok σ u = None →
        get can_state σ' n = Some false).
Proof.
intros Hn Hother Hsome σ' used.
set (d := default default_dochome dh).
assert (∀ g', g' ∈ gs1 → n ∉ nodes g') as Hbefore.
{ intros g' Hg'. apply Hother, elem_of_app. by left. }
assert (∀ g', g' ∈ gs2 → n ∉ nodes g') as Hafter.
{ intros g' Hg'. apply Hother, elem_of_app. by right. }
assert (∀ A (f : UserData → option A),
          get f σ' n = get f (process_graph d g (make_lean_data dh gs1 σ)) n) as Hfinal.
{ intros A f. unfold σ'. rewrite make_lean_data_app. simpl.
  change (foldl _ ?s gs2) with (make_lean_data dh gs2 s).
  by rewrite make_lean_data_get_notin. }
assert (n ∈ elements (nodes g)) as Hel by by apply elem_of_elements.
destruct (list_elem_of_split _ _ Hel) as (pre & post & Heq).
pose proof (NoDup_elements (nodes g)) as Hnd. rewrite Heq in Hnd.
assert (is_Some ((make_lean_data dh gs1 σ) !! n)) as Hsome0 by by apply make_lean_data_is_Some.
destruct (process_graph_in_status d g pre n post (make_lean_data dh gs1 σ) Hnd Hsome0)
  as [Hcs Hproof].
rewrite <- Heq in Hcs, Hproof.
change (process_graph_in d g (elements (nodes g)) (make_lean_data dh gs1 σ))
  with (process_graph d g (make_lean_data dh gs1 σ)) in Hcs, Hproof.
rewrite make_lean_data_all_leanok in Hcs.
rewrite (make_lean_data_get_notin uses) in Hcs by done.
rewrite (make_lean_data_frame notready) in Hcs by done.
rewrite (make_lean_data_frame proved_by) in Hproof by done.
assert (get can_state σ' n
        = Some (all_leanok σ used && negb (truthy (get notready σ n))))
  as Hcs' by by rewrite Hfinal.
split; [done|]. split.
- destruct (truthy_node (get proved_by σ n)) as [p|].
  + destruct Hproof as [Hcp Hpr]. rewrite !Hfinal. split.
    * rewrite Hpr. by rewrite make_lean_data_leanok.
    * intros Hp. rewrite Hcp.
      rewrite make_lean_data_all_leanok.
      rewrite (make_lean_data_get_notin uses dh gs1 n) by done.
      rewrite first_loop_uses_notin.
      { rewrite (make_lean_data_get_notin uses dh gs1 p); [done|].
        intros g' Hg'. apply Hp, elem_of_app. by left. }
      intros Hin. apply (Hp g); [apply elem_of_app; right; by left|].
      apply elem_of_elements. rewrite Heq. apply elem_of_app. by left.
  + by rewrite !Hfinal.
- intros u Hu Hnone. rewrite Hcs'. f_equal.
  apply andb_false_intro1. unfold all_leanok.
  apply not_true_is_false. rewrite forallb_forall. intros Hall.
  specialize (Hall u). rewrite Hnone in Hall.
  apply list_elem_of_In in Hu. by specialize (Hall Hu).
Qed.
End flags_after.

(** ** What the pass keeps and what it changes *)

Lemma write_proj {A} (h : Node → A) n f m (σ : store) :
  (∀ nd, h (with_userdata f nd) = h nd) →
  h <$> (write n f σ !! m) = h <$> (σ !! m).
Proof.
  intros Hh. unfold write. destruct (decide (n = m)) as [->|Hne].
  - rewrite lookup_alter_eq. destruct (σ !! m); simpl; by rewrite ?Hh.
  - by rewrite lookup_alter_ne.
Qed.

Section kept.
Context `{Plugin}.

Lemma visit_node_proj {A} (h : Node → A) d n m (σ : store) :
(∀ f nd, h (with_userdata f nd) = h nd) →
h <$> (visit_node d n σ !! m) = h <$> (σ !! m).
Proof. intros. visit_cases; by rewrite !write_proj. Qed.

Lemma process_graph_proj {A} (h : Node → A) d g m (σ : store) :
(∀ f nd, h (with_userdata f nd) = h nd) →
h <$> (process_graph d g σ !! m) = h <$> (σ !! m).
Proof.
intros Hh. unfold process_graph, process_graph_in.
generalize (elements (nodes g)). intros ns.
transitivity (h <$> (first_loop d ns σ !! m)).
- generalize (first_loop d ns σ). intros σ1.
  induction ns as [|x ns IH] using rev_ind; [done|].
  rewrite second_loop_snoc. unfold visit_fully_proved.
  by rewrite write_proj.
- induction ns as [|x ns IH] using rev_ind; [done|].
  by rewrite first_loop_snoc, visit_node_proj.
Qed.

(** X4.  The pass neither adds nor removes a node, and on every node it
  leaves the id, the caption, the flags [leanok], [mathlibok] and
  [notready], the proof node, the declarations, the issue and every key
  it does not know as they were. *)
Theorem make_lean_data_keeps_authored dh gs m (σ : store) :
node_id <$> (make_lean_data dh gs σ !! m) = node_id <$> (σ !! m)
∧ node_caption <$> (make_lean_data dh gs σ !! m)
  = node_caption <$> (σ !! m)
∧ get leanok (make_lean_data dh gs σ) m = get leanok σ m
∧ get mathlibok (make_lean_data dh gs σ) m = get mathlibok σ m
∧ get notready (make_lean_data dh gs σ) m = get notready σ m
∧ get proved_by (make_lean_data dh gs σ) m = get proved_by σ m
∧ get leandecls (make_lean_data dh gs σ) m = get leandecls σ m
∧ get issue (make_lean_data dh gs σ) m = get issue σ m
∧ get (λ d, Some (extra d)) (make_lean_data dh gs σ) m
  = get (λ d, Some (extra d)) σ m.
Proof.
assert (∀ A (h : Node → A), (∀ f nd, h (with_userdata f nd) = h nd) →
          h <$> (make_lean_data dh gs σ !! m) = h <$> (σ !! m)) as Hproj.
{ intros A h Hh. induction gs as [|g gs IH] using rev_ind; [done|].
  by rewrite make_lean_data_snoc, process_graph_proj. }
split; [by apply Hproj|]. split; [by apply Hproj|].
repeat split; by apply make_lean_data_frame.
Qed.

(** X5.  What the pass over a graph does to the lists of prerequisites:
  the list of a node of the graph whose proof node is not empty and is
  not a node of the graph is extended, in place, by the list of the
  proof node; a node without the key gets none; the list of a node
  without a proof node or with an empty one, and of a node outside the
  graph, is left as it was. *)
Theorem process_graph_uses d g (σ : store) :
(∀ n p, n ∈ nodes g → get proved_by σ n = Some p → node_bool p = true →
   p ∉ nodes g →
   get uses (process_graph d g σ) n
   = (λ l, l ++ default [] (get uses σ p)) <$> get uses σ n)
∧ (∀ n, get proved_by σ n = None
        ∨ (∃ p, get proved_by σ n = Some p ∧ node_bool p = false) →
     get uses (process_graph d g σ) n = get uses σ n)
∧ (∀ n, n ∉ nodes g →
     get uses (process_graph d g σ) n = get uses σ n).
Proof.
assert (∀ n, n ∈ nodes g →
          ∃ pre, (∀ p, p ∉ nodes g → p ∉ pre) ∧ (n ∉ pre)
                 ∧ get uses (process_graph d g σ) n
                   = get uses (visit_node d n (first_loop d pre σ)) n)
  as Hvisit.
{ intros n Hn. apply elem_of_elements in Hn.
  pose proof (NoDup_elements (nodes g)) as Hnd.
  destruct (list_elem_of_split _ _ Hn) as (pre & post & Heq).
  rewrite Heq in Hnd. apply NoDup_app in Hnd as (_ & Hpre & Hnd).
  apply NoDup_cons in Hnd as [Hpost _].
  exists pre. split; [|split].
  - intros p Hp Hin. apply Hp, elem_of_elements. rewrite Heq.
    apply elem_of_app. by left.
  - intros Hin. apply (Hpre n Hin). by left.
  - unfold process_graph. rewrite process_graph_in_get by done.
    rewrite Heq. by apply first_loop_get_at. }
split; [|split].
- intros n p Hn Hp Hb Hout.
  destruct (Hvisit n Hn) as (pre & Hpre & Hnpre & ->).
  rewrite visit_node_uses, first_loop_proved_by.
  assert (truthy_node (get proved_by σ n) = Some p) as ->
    by by apply truthy_node_Some.
  rewrite !first_loop_uses_notin by auto.
  by destruct (get uses σ n).
- intros n Hp%truthy_node_None.
  destruct (decide (n ∈ nodes g)) as [Hn|Hn].
  + destruct (Hvisit n Hn) as (pre & Hpre & Hnpre & ->).
    rewrite visit_node_uses, first_loop_proved_by, Hp.
    rewrite first_loop_uses_notin by done. by destruct (get uses σ n).
  + by apply process_graph_get_notin.
- intros n Hn. by apply process_graph_get_notin.
Qed.

(** X6.  Within a graph, an ancestor of a fully proved node is fully
  proved, when the ancestors of the ancestor are ancestors of the
  node. *)
Theorem fully_proved_ancestor d g n m (σ : store) :
n ∈ nodes g → m ∈ nodes g → is_Some (σ !! m) →
m ∈ ancestors g n → ancestors g m ⊆ ancestors g n →
get fully_proved (process_graph d g σ) n = Some true →
get fully_proved (process_graph d g σ) m = Some true.
Proof.
intros Hn Hm Hsome Hanc Hsub Hfp.
assert (is_Some (σ !! n)) as Hsome'.
{ eapply process_graph_is_Some, get_is_Some, Hfp. }
unfold process_graph in *.
rewrite process_graph_in_fully_proved in Hfp
  by (by try apply elem_of_elements).
rewrite process_graph_in_fully_proved by (by try apply elem_of_elements).
injection Hfp as Hall. f_equal.
rewrite forallb_forall in *. intros x Hx. apply Hall.
apply list_elem_of_In, elem_of_elements in Hx.
apply list_elem_of_In, elem_of_elements.
apply elem_of_union in Hx as [Hx|Hx]; apply elem_of_union; left.
- by apply Hsub.
- by apply elem_of_singleton in Hx as ->.
Qed.

(** X7.  The pass does not change whether the check mark of the header
  of a node is shown.  For a node of a graph whose proof node, when it
  is empty, has no [leanok] (the command that sets the flag is a child
  of the node it marks), the check mark is shown after the pass exactly
  when the node has [leanok] and, if it has a proof node, is proved. *)
Theorem checkmark_after_pass dh gs g n (σ : store) :
g ∈ gs → n ∈ nodes g → is_Some (σ !! n) →
checkmark (make_lean_data dh gs σ) n = checkmark σ n
∧ ((∀ p, get proved_by σ n = Some p → node_bool p = false →
         truthy (get leanok σ p) = false) →
   checkmark (make_lean_data dh gs σ) n
   = truthy (get leanok σ n)
     && match get proved_by σ n with
        | Some _ => truthy (get proved (make_lean_data dh gs σ) n)
        | None => true
        end).
Proof.
intros Hg Hn Hsome.
assert (checkmark (make_lean_data dh gs σ) n = checkmark σ n) as Hsame.
{ unfold checkmark.
  rewrite (make_lean_data_frame proved_by) by done.
  destruct (get proved_by σ n);
    by rewrite !(make_lean_data_frame leanok). }
split; [done|]. intros Hempty. rewrite Hsame. unfold checkmark. f_equal.
destruct (get proved_by σ n) as [p|] eqn:Hp; [|done].
rewrite (make_lean_data_proved dh gs g n σ) by done.
unfold proved_of. rewrite Hp. simpl.
destruct (node_bool p) eqn:Hb; simpl; [done|]. by apply Hempty.
Qed.
End kept.

(** ** Witnesses on the sample documents *)

Lemma can_prove_implies_can_state_witness :
  ready_graph ∈ [ready_graph] ∧ 0 ∈ nodes ready_graph
  ∧ get can_prove
      (make_lean_data (H:=sample_plugin) None [ready_graph] ready_store) 0
    = Some true
  ∧ get can_state
      (make_lean_data (H:=sample_plugin) None [ready_graph] ready_store) 0
    = Some true.
Proof.
  assert (ready_graph ∈ [ready_graph]) as Hg by (by left).
  assert (0 ∈ nodes ready_graph) as Hn by compute_done.
  assert (get can_prove
            (make_lean_data (H:=sample_plugin) None [ready_graph] ready_store)
            0 = Some true) as Hcp by (by vm_compute).
  split; [done|]. split; [done|]. split; [done|].
  apply (can_prove_implies_can_state (H:=sample_plugin) None [ready_graph]
           ready_graph 0 ready_store Hg Hn Hcp).
  by vm_compute.
Defined.

Lemma proved_is_leanok_of_proof_witness :
  sample_graph ∈ [sample_graph] ∧ 0 ∈ nodes sample_graph
  ∧ is_Some (sample_store !! 0)
  ∧ get proved
      (make_lean_data (H:=sample_plugin) None [sample_graph] sample_store) 0
    = Some true.
Proof.
  assert (sample_graph ∈ [sample_graph]) as Hg by (by left).
  assert (0 ∈ nodes sample_graph) as Hn by compute_done.
  assert (is_Some (sample_store !! 0)) as Hs by (eexists; by vm_compute).
  split; [done|]. split; [done|]. split; [done|].
  pose proof (proved_is_leanok_of_proof (H:=sample_plugin) None
                [sample_graph] sample_graph 0 sample_store Hg Hn Hs) as Hp.
  change (get proved_by sample_store 0) with (Some 2) in Hp.
  destruct Hp as [Hp _]. rewrite Hp. by vm_compute.
Defined.

Lemma readiness_sound_witness :
  ready_graph ∈ [ready_graph] ∧ 0 ∈ nodes ready_graph
  ∧ truthy (get leanok ready_store 1) = true.
Proof.
  assert (ready_graph ∈ [ready_graph]) as Hg by (by left).
  assert (0 ∈ nodes ready_graph) as Hn by compute_done.
  split; [done|]. split; [done|].
  destruct (readiness_sound (H:=sample_plugin) None [ready_graph]
              ready_graph 0 ready_store Hg Hn) as [Hcs _].
  destruct Hcs as [_ Hall]; [by vm_compute|].
  apply Hall. by vm_compute; left.
Defined.

Lemma process_graph_uses_witness :
  0 ∈ nodes sample_graph ∧ get proved_by sample_store 0 = Some 2
  ∧ node_bool (Plugin:=sample_plugin) 2 = true
  ∧ (2 ∉ nodes sample_graph)
  ∧ get uses (process_graph (H:=sample_plugin) "doc" sample_graph sample_store)
      0 = Some [1; 3].
Proof.
  assert (0 ∈ nodes sample_graph) as Hn by compute_done.
  assert (get proved_by sample_store 0 = Some 2) as Hp by (by vm_compute).
  assert (node_bool (Plugin:=sample_plugin) 2 = true) as Hb by done.
  assert (2 ∉ nodes sample_graph) as Hout by compute_done.
  split; [done|]. split; [done|]. split; [done|]. split; [done|].
  destruct (process_graph_uses (H:=sample_plugin) "doc" sample_graph
              sample_store) as [Hext _].
  by rewrite (Hext 0 2 Hn Hp Hb Hout).
Defined.

Lemma fully_proved_ancestor_witness :
  0 ∈ nodes sample_graph ∧ 1 ∈ nodes sample_graph
  ∧ is_Some (sample_store !! 1)
  ∧ 1 ∈ ancestors (Plugin:=sample_plugin) sample_graph 0
  ∧ ancestors (Plugin:=sample_plugin) sample_graph 1
    ⊆ ancestors (Plugin:=sample_plugin) sample_graph 0
  ∧ get fully_proved
      (process_graph (H:=sample_plugin) "doc" sample_graph sample_store) 1
    = Some true.
Proof.
  assert (0 ∈ nodes sample_graph) as Hn by compute_done.
  assert (1 ∈ nodes sample_graph) as Hm by compute_done.
  assert (is_Some (sample_store !! 1)) as Hs by (eexists; by vm_compute).
  assert (1 ∈ ancestors (Plugin:=sample_plugin) sample_graph 0) as Ha
    by compute_done.
  assert (ancestors (Plugin:=sample_plugin) sample_graph 1
          ⊆ ancestors (Plugin:=sample_plugin) sample_graph 0) as Hsub
    by compute_done.
  split; [done|]. split; [done|]. split; [done|]. split; [done|].
  split; [done|].
  apply (fully_proved_ancestor (H:=sample_plugin) "doc" sample_graph 0 1
           sample_store Hn Hm Hs Ha Hsub).
  by vm_compute.
Defined.

Lemma checkmark_after_pass_witness :
  sample_graph ∈ [sample_graph] ∧ 1 ∈ nodes sample_graph
  ∧ is_Some (sample_store !! 1)
  ∧ checkmark
      (make_lean_data (H:=sample_plugin) None [sample_graph] sample_store) 1
    = true.
Proof.
  assert (sample_graph ∈ [sample_graph]) as Hg by (by left).
  assert (1 ∈ nodes sample_graph) as Hn by compute_done.
  assert (is_Some (sample_store !! 1)) as Hs by (eexists; by vm_compute).
  split; [done|]. split; [done|]. split; [done|].
  destruct (checkmark_after_pass (H:=sample_plugin) None [sample_graph]
              sample_graph 1 sample_store Hg Hn Hs) as [_ Hshown].
  rewrite Hshown; [by vm_compute|]. intros p Hp. by vm_compute in Hp.
Defined.

Lemma status_of_node_visited_once_witness :
  0 ∈ nodes sample_graph
  ∧ (∀ g', g' ∈ [] ++ [] → 0 ∉ nodes g')
  ∧ is_Some (sample_store !! 0)
  ∧ get can_state
      (make_lean_data (H:=sample_plugin) None [sample_graph] sample_store) 0
    = Some true
  ∧ get proved
      (make_lean_data (H:=sample_plugin) None [sample_graph] sample_store) 0
    = Some true
  ∧ get can_prove
      (make_lean_data (H:=sample_plugin) None [sample_graph] sample_store) 0
    = Some false.
Proof.
  assert (0 ∈ nodes sample_graph) as Hn by compute_done.
  assert (∀ g' : DepGraph, g' ∈ [] ++ [] → 0 ∉ nodes g') as Hother
    by (intros g' Hg'; by apply elem_of_nil in Hg').
  assert (is_Some (sample_store !! 0)) as Hs by (eexists; by vm_compute).
  split; [done|]. split; [done|]. split; [done|].
  destruct (status_of_node_visited_once (H:=sample_plugin) None []
              sample_graph [] 0 sample_store Hn Hother Hs)
    as (Hcs & Hproof & _).
  split; [etrans; [exact Hcs|by vm_compute]|].
  change (truthy_node (H:=sample_plugin) (get proved_by sample_store 0))
    with (Some 2) in Hproof.
  destruct Hproof as [Hpr Hcp].
  split; [etrans; [exact Hpr|by vm_compute]|].
  etrans; [apply Hcp|by vm_compute].
  intros g' Hg'. apply list_elem_of_singleton in Hg' as ->. compute_done.
Defined.

(** ** Commands, colours and the legend *)

Lemma dict_get_set_eq {A} (k : string) (v : A) d :
  dict_get k (dict_set k v d) = Some v.
Proof.
  induction d as [|[k0 v0] d IH]; simpl.
  - by case_decide.
  - destruct (decide (k = k0)) as [->|]; simpl; by case_decide.
Qed.

Lemma dict_get_set {A} (k k' : string) (v : A) d :
  dict_get k (dict_set k' v d)
  = if decide (k = k') then Some v else dict_get k d.
Proof.
  case_decide as Hk; [subst; apply dict_get_set_eq|].
  by apply dict_get_set_ne.
Qed.

Lemma dict_get_None {A} (k : string) (d : list (string * A)) :
  dict_get k d = None ↔ k ∉ dict_keys d.
Proof.
  unfold dict_keys. induction d as [|[k0 v0] d IH]; simpl.
  - split; [intros _; apply not_elem_of_nil|done].
  - rewrite not_elem_of_cons. case_decide; [|tauto].
    split; [done|]. by intros [? _].
Qed.

Lemma dict_set_fresh {K A} `{EqDecision K} (k : K) (v : A) d :
  k ∉ dict_keys d → dict_set k v d = d ++ [(k, v)].
Proof.
  unfold dict_keys. induction d as [|[k0 v0] d IH]; simpl; [done|].
  rewrite not_elem_of_cons. intros [Hne Hk].
  case_decide; [done|]. by rewrite IH.
Qed.

Lemma dict_keys_set_present {A} (k : string) (v : A) d :
  k ∈ dict_keys d → dict_keys (dict_set k v d) = dict_keys d.
Proof.
  unfold dict_keys. induction d as [|[k0 v0] d IH]; simpl.
  - intros Hk. by apply elem_of_nil in Hk.
  - intros Hk. case_decide as Heq; [by subst|].
    simpl. f_equal. apply IH. apply elem_of_cons in Hk as [?|?]; done.
Qed.

Lemma colors_ok_default : colors_ok default_colors.
Proof.
  intros k Hk. unfold dict_keys, default_colors in Hk. simpl in Hk.
  repeat (apply elem_of_cons in Hk as [->|Hk]; [by eexists _, _|]).
  by apply elem_of_nil in Hk.
Qed.

Lemma colors_ok_set cs k c d :
  colors_ok cs → colors_ok (dict_set k (VTuple [VStr c; VStr d]) cs).
Proof.
  intros Hok k' Hk'. rewrite dict_get_set. case_decide; [by eexists _, _|].
  by apply Hok.
Qed.

Lemma colors_ok_color0 cs k :
  colors_ok cs → k ∈ dict_keys default_colors →
  ∃ c, color0 cs k = Some (VStr c).
Proof.
  intros Hok Hk. destruct (Hok k Hk) as (c & d & Hget).
  exists c. unfold color0. by rewrite Hget.
Qed.

Section descr.
Context `{Plugin}.

Lemma colors_ok_descr cs k :
colors_ok cs → k ∈ dict_keys default_colors →
∃ d, color_descr cs k = Some d.
Proof.
intros Hok Hk. destruct (Hok k Hk) as (c & d & Hget).
exists d. unfold color_descr. by rewrite Hget.
Qed.

Lemma color_descr_set_ne cs k k' v :
k ≠ k' → color_descr (dict_set k' v cs) k = color_descr cs k.
Proof. intros. unfold color_descr. by rewrite dict_get_set_ne. Qed.

(** X8.  [graphcolor] on a document that has the colour table binds the
  node type to the stripped colour and description and leaves every other
  colour, the legend, the graphs and the nodes as they were; a node type
  that is not in the table is added all the same, and only then a
  warning is logged. *)
Theorem graphcolor_spec node_type color descr parent s dg cs :
dep_graph (st_doc s) = Some dg → colors dg = Some cs →
∃ s' dg' cs',
  digest (graphcolor node_type color descr) parent s = Ok s'
  ∧ dep_graph (st_doc s') = Some dg' ∧ colors dg' = Some cs'
  ∧ dict_get node_type cs'
    = Some (VTuple [VStr (strip color); VStr (strip descr)])
  ∧ (∀ k, k ≠ node_type → dict_get k cs' = dict_get k cs)
  ∧ dict_keys cs'
    = (if decide (node_type ∈ dict_keys cs) then dict_keys cs
       else dict_keys cs ++ [node_type])
  ∧ st_log s'
    = (if decide (node_type ∈ dict_keys cs) then st_log s
       else st_log s ++ [(WARNING, "Unknown node type " +:+ node_type)])
  ∧ legend dg' = legend dg ∧ graphs dg' = graphs dg
  ∧ st_nodes s' = st_nodes s.
Proof.
intros Hdg Hcs. eexists _, _, _. simpl. rewrite Hdg, Hcs.
split; [done|]. simpl. split; [done|]. split; [done|].
split; [apply dict_get_set_eq|].
split; [intros; by apply dict_get_set_ne|].
destruct (dict_get node_type cs) as [v|] eqn:Hget.
- assert (node_type ∈ dict_keys cs) as Hin.
  { destruct (decide (node_type ∈ dict_keys cs)) as [|Hout]; [done|].
    apply dict_get_None in Hout. congruence. }
  rewrite decide_True by done. rewrite decide_True by done.
  by rewrite dict_keys_set_present.
- assert (node_type ∉ dict_keys cs) as Hout by by apply dict_get_None.
  rewrite decide_False by done. rewrite decide_False by done.
  rewrite dict_set_fresh by done. unfold dict_keys.
  by rewrite fmap_app.
Qed.

Lemma digest_colors_ok c parent s s' :
digest c parent s = Ok s' → state_colors_ok s → state_colors_ok s'.
Proof.
intros Hd (dg & cs & Hdg & Hcs & Hok). destruct c; simpl in Hd;
  try (injection Hd as <-; by exists dg, cs).
rewrite Hdg, Hcs in Hd. injection Hd as <-.
eexists _, _. split; [by destruct (dict_get node_type cs)|].
split; [done|]. by apply colors_ok_set.
Qed.

Lemma step_colors_ok s s' : step s s' → state_colors_ok s → state_colors_ok s'.
Proof.
intros [c parent s1 s2 Hd|s1 s2 Hc] Hok.
- by apply (digest_colors_ok c parent s1).
- unfold make_lean_data_callback in Hc.
  destruct Hok as (dg & cs & Hdg & Hcs & Hok). rewrite Hdg in Hc.
  destruct (graphs dg); [|done]. injection Hc as <-. by exists dg, cs.
Qed.

(** X9.  Starting with a colour table that binds the eight colours of the
  package to pairs of strings, as the package sets it up, no sequence of
  commands and passes makes a colorizer fail: on every node both return
  a string. *)
Theorem colorizers_never_raise s s' :
rtc step s s' → state_colors_ok s →
∃ dg cs, dep_graph (st_doc s') = Some dg ∧ colors dg = Some cs
         ∧ ∀ σ node, (∃ c, colorizer cs σ node = Some (VStr c))
                     ∧ (∃ c, fillcolorizer cs σ node = Some (VStr c)).
Proof.
intros Hsteps Hok.
assert (state_colors_ok s') as (dg & cs & Hdg & Hcs & Hcols).
{ induction Hsteps as [|s1 s2 s3 Hstep _ IH]; [done|].
  apply IH. by apply (step_colors_ok s1). }
exists dg, cs. split; [done|]. split; [done|]. intros σ node.
assert (∀ k, k ∈ dict_keys default_colors →
             ∃ c, color0 cs k = Some (VStr c)) as Hc0
  by (intros; by apply colors_ok_color0).
destruct (Hc0 "mathlib") as [c1 H1]; [compute_done|].
destruct (Hc0 "stated") as [c2 H2]; [compute_done|].
destruct (Hc0 "can_state") as [c3 H3]; [compute_done|].
destruct (Hc0 "not_ready") as [c4 H4]; [compute_done|].
destruct (Hc0 "proved") as [c5 H5]; [compute_done|].
destruct (Hc0 "can_prove") as [c6 H6]; [compute_done|].
destruct (Hc0 "defined") as [c7 H7]; [compute_done|].
destruct (Hc0 "fully_proved") as [c8 H8]; [compute_done|].
split.
- unfold colorizer. rewrite H1, H2, H3, H4.
  repeat case_match; by eexists.
- unfold fillcolorizer. rewrite H5, H6, H7, H8.
  repeat case_match; simpl; repeat case_match; by eexists.
Qed.

(** X10.  [make_legend] fails without a legend or without a colour table;
  with a legend and the eight colours bound to pairs of strings it adds
  seven pairs of strings after the entries the legend has, and leaves the
  colours and the graphs as they were. *)
Theorem make_legend_spec dg :
(legend dg = None ∨ colors dg = None → make_legend dg = None)
∧ (∀ old cs, legend dg = Some old → colors dg = Some cs → colors_ok cs →
     ∃ added,
       make_legend dg = Some (set_legend (old ++ added) dg)
       ∧ length added = 7
       ∧ Forall (λ e, ∃ l d, e = VTuple [VStr l; VStr d]) added).
Proof.
split.
- intros [Hl|Hc]; unfold make_legend; [by rewrite Hl|].
  rewrite Hc. by destruct (legend dg).
- intros old cs Hl Hc Hok. unfold make_legend. rewrite Hl, Hc. simpl.
  destruct (colors_ok_descr cs "can_state" Hok) as [d1 ->]; [compute_done|].
  destruct (colors_ok_descr cs "not_ready" Hok) as [d2 ->]; [compute_done|].
  destruct (colors_ok_descr cs "proved" Hok) as [d3 ->]; [compute_done|].
  destruct (colors_ok_descr cs "fully_proved" Hok) as [d4 ->];
    [compute_done|].
  destruct (colors_ok_descr cs "mathlib" Hok) as [d5 ->]; [compute_done|].
  simpl. eexists. split; [done|]. split; [done|].
  repeat (constructor; [by eexists _, _|]). constructor.
Qed.

(** X11.  The legend does not read the descriptions of the colours
  [stated], [can_prove] and [defined]: redefining one of them with
  [graphcolor] changes nothing in the entries [make_legend] produces. *)
Theorem legend_ignores_redefinition node_type color descr parent s s' :
node_type ∈ ["stated"; "can_prove"; "defined"] →
digest (graphcolor node_type color descr) parent s = Ok s' →
(dep_graph (st_doc s') ≫= make_legend) ≫= legend
= (dep_graph (st_doc s) ≫= make_legend) ≫= legend.
Proof.
intros Hk Hd. simpl in Hd.
destruct (dep_graph (st_doc s)) as [dg|] eqn:Hdg; [|done].
destruct (colors dg) as [cs|] eqn:Hcs; [|done].
injection Hd as <-.
assert (dep_graph
          (st_doc
             (on_doc
                (set_dep_graph
                   (set_colors
                      (dict_set node_type
                         (VTuple [VStr (strip color);
                                  VStr (strip descr)]) cs) dg))
                (if dict_get node_type cs is Some _ then s
                 else warn ("Unknown node type " +:+ node_type) s)))
        = Some (set_colors
                  (dict_set node_type
                     (VTuple [VStr (strip color); VStr (strip descr)])
                     cs) dg)) as -> by by destruct (dict_get node_type cs).
simpl. unfold make_legend. simpl. rewrite Hcs.
destruct (legend dg) as [old|]; [|done]. simpl.
assert (∀ k, k ∈ ["can_state"; "not_ready"; "proved"; "fully_proved";
                  "mathlib"] →
             color_descr
               (dict_set node_type
                  (VTuple [VStr (strip color); VStr (strip descr)])
                  cs) k
             = color_descr cs k) as Hsame.
{ intros k Hin. apply color_descr_set_ne. intros ->.
  repeat (apply elem_of_cons in Hk as [Hk|Hk];
          [subst;
           repeat (apply elem_of_cons in Hin as [Hin|Hin]; [done|]);
           by apply elem_of_nil in Hin|]).
  by apply elem_of_nil in Hk. }
rewrite !Hsame by compute_done.
by repeat (destruct (color_descr cs _); simpl; [|done]).
Qed.
End descr.

Lemma graphcolor_spec_witness :
  dep_graph (st_doc sample_state) = Some sample_dep_graph
  ∧ colors sample_dep_graph = Some default_colors
  ∧ ∃ s', digest (H:=sample_plugin) (graphcolor "lemma" "red" "Red") 0
            sample_state = Ok s'
          ∧ st_log s' = [(WARNING, "Unknown node type lemma")].
Proof.
  assert (dep_graph (st_doc sample_state) = Some sample_dep_graph) as Hdg
    by done.
  assert (colors sample_dep_graph = Some default_colors) as Hcs by done.
  split; [done|]. split; [done|].
  destruct (graphcolor_spec (H:=sample_plugin) "lemma" "red" "Red" 0
              sample_state sample_dep_graph default_colors Hdg Hcs)
    as (s' & dg' & cs' & Hd & _ & _ & _ & _ & _ & Hlog & _).
  exists s'. split; [exact Hd|]. rewrite Hlog. by vm_compute.
Defined.

Lemma colorizers_never_raise_witness :
  rtc (step (H:=sample_plugin)) sample_state sample_state_final
  ∧ state_colors_ok sample_state
  ∧ ∃ c, colorizer default_colors (st_nodes sample_state_final) 0
         = Some (VStr c).
Proof.
  assert (rtc (step (H:=sample_plugin)) sample_state sample_state_final)
    as Hsteps.
  { eapply rtc_l; [by apply (step_digest cmd_mathlibok 0)|].
    apply rtc_once. by apply step_make_lean_data. }
  assert (state_colors_ok sample_state) as Hok.
  { exists sample_dep_graph, default_colors.
    split; [done|]. split; [done|]. apply colors_ok_default. }
  split; [done|]. split; [done|].
  destruct (colorizers_never_raise (H:=sample_plugin) sample_state
              sample_state_final Hsteps Hok) as (dg & cs & Hdg & Hcs & Hall).
  assert (cs = default_colors) as ->.
  { vm_compute in Hdg. injection Hdg as <-. vm_compute in Hcs.
    by injection Hcs as <-. }
  apply Hall.
Defined.

Lemma make_legend_spec_witness :
  legend sample_dep_graph = Some []
  ∧ colors sample_dep_graph = Some default_colors
  ∧ colors_ok default_colors
  ∧ ∃ dg', make_legend (H:=sample_plugin) sample_dep_graph = Some dg'.
Proof.
  assert (legend sample_dep_graph = Some []) as Hl by done.
  assert (colors sample_dep_graph = Some default_colors) as Hc by done.
  split; [done|]. split; [done|]. split; [apply colors_ok_default|].
  destruct (make_legend_spec (H:=sample_plugin) sample_dep_graph) as [_ Hok].
  destruct (Hok [] default_colors Hl Hc colors_ok_default)
    as (added & Heq & _).
  by eexists.
Defined.

Lemma legend_ignores_redefinition_witness :
  "can_prove" ∈ ["stated"; "can_prove"; "defined"]
  ∧ ∃ s', digest (H:=sample_plugin) (graphcolor "can_prove" "purple" "Purple")
            0 sample_state = Ok s'
          ∧ (dep_graph (st_doc s') ≫= make_legend (H:=sample_plugin))
              ≫= legend
            = (dep_graph (st_doc sample_state)
                 ≫= make_legend (H:=sample_plugin)) ≫= legend.
Proof.
  assert ("can_prove" ∈ ["stated"; "can_prove"; "defined"]) as Hk
    by compute_done.
  split; [done|]. eexists. split; [done|].
  by apply (legend_ignores_redefinition (H:=sample_plugin) "can_prove"
              "purple" "Purple" 0 sample_state).
Defined.

(** ** Declarations and links *)

Lemma rstrip_char_spec (c : ascii) (s : string) :
  ∃ k, s = rstrip_char c s +:+ repeat_char c k
       ∧ last_char (rstrip_char c s) ≠ Some c.
Proof.
  induction s as [|a s (k & Heq & Hlast)].
  { by exists 0. }
  simpl. destruct (rstrip_char c s) as [|b r] eqn:Hr.
  - simpl in Heq. subst s. case_decide as Hac.
    + subst a. by exists (S k).
    + exists k. split; [done|]. simpl. congruence.
  - exists k. split; [by rewrite Heq at 1|]. done.
Qed.

Section declarations.
Context `{Plugin}.

(** X12.  [github] stores the url without its trailing slashes, however
  many there are: the stored url does not end with a slash, and the url
  given is the stored one followed by slashes only. *)
Theorem github_strips_slashes (url : string) (parent : nid) (s : State) :
∃ s' u k,
  digest (github url) parent s = Ok s'
  ∧ project_github (st_doc s') = Some u
  ∧ url = u +:+ repeat_char "/" k
  ∧ last_char u ≠ Some "/"%char
  ∧ st_nodes s' = st_nodes s.
Proof.
destruct (rstrip_char_spec "/" url) as (k & Heq & Hlast).
by eexists _, _, k.
Qed.

Lemma digest_decls_listed c parent s s' :
digest c parent s = Ok s' → decls_listed s → decls_listed s'.
Proof.
intros Hd Hok. destruct c; simpl in Hd;
  try (injection Hd as <-; intros n l d; simpl;
       rewrite ?get_write_frame by done; by apply Hok).
- destruct (dep_graph (st_doc s)) as [dg|]; [|done].
  destruct (colors dg) as [cs|]; [|done].
  injection Hd as <-. intros n l d. simpl.
  destruct (dict_get node_type cs); by apply Hok.
- injection Hd as <-. intros n l d. simpl. rewrite get_write.
  case_decide as Hn.
  + subst n. destruct (st_nodes s !! parent); [|done]. simpl.
    intros [= <-] Hin. apply elem_of_app. by right.
  + intros Hl Hin. apply elem_of_app. left. by apply (Hok n l).
Qed.

(** X13.  Every declaration a node carries is in the document's list of
  declarations, from which the file of declarations is written: no
  sequence of commands and passes breaks this. *)
Theorem declarations_stay_listed (s s' : State) :
rtc step s s' → decls_listed s → decls_listed s'.
Proof.
induction 1 as [s|s1 s2 s3 Hstep _ IH]; [done|].
intros Hok. apply IH. destruct Hstep as [c parent s1 s2 Hd|s1 s2 Hc].
- by apply (digest_decls_listed c parent s1).
- unfold make_lean_data_callback in Hc.
  destruct (dep_graph (st_doc s1)) as [dg|]; [|done].
  destruct (graphs dg) as [gs|]; [|done].
  injection Hc as <-. intros n l d. simpl.
  rewrite make_lean_data_frame by done. by apply Hok.
Qed.

(** X14.  [dochome], then [lean] on a node of a graph, then the pass: the
  node's links are those of the stripped declarations, in order, each to
  [url/find/#doc/name], and the declarations are appended to the
  document's list. *)
Theorem lean_urls_after_commands url decls n parent s s1 s2 s3 dg gs sec g :
digest (dochome url) parent s = Ok s1 →
digest (lean decls) n s1 = Ok s2 →
make_lean_data_callback s2 = Ok s3 →
dep_graph (st_doc s) = Some dg → graphs dg = Some gs →
(sec, g) ∈ gs → n ∈ nodes g → is_Some (st_nodes s !! n) →
get lean_urls (st_nodes s3) n
= Some ((λ d, (strip d, url +:+ "/find/#doc/" +:+ strip d)) <$> decls)
∧ lean_decls (st_doc s3)
  = Some (default [] (lean_decls (st_doc s)) ++ (strip <$> decls)).
Proof.
intros H1 H2 H3 Hdg Hgs Hin Hn Hsome.
simpl in H1. injection H1 as <-. simpl in H2. injection H2 as <-.
unfold make_lean_data_callback in H3. simpl in H3.
rewrite Hdg, Hgs in H3. injection H3 as <-. simpl. split; [|done].
assert (g ∈ gs.*2) as Hg.
{ apply list_elem_of_fmap. by exists (sec, g). }
destruct (make_lean_data_last_visit (Some url) gs.*2 g n
            (write n (set_leandecls (strip <$> decls)) (st_nodes s)) Hg Hn)
  as (σv & (_ & _ & _ & Hdecls & Hdom & _) & Hst).
apply status_inv in Hst as (_ & _ & _ & ->).
rewrite visit_node_lean_urls by (by apply Hdom, write_is_Some).
rewrite Hdecls. erewrite get_write_set; [|done|done].
simpl. f_equal. by rewrite <- list_fmap_compose.
Qed.
End declarations.

Lemma declarations_stay_listed_witness :
  rtc (step (H:=sample_plugin)) sample_state
    (on_doc (set_lean_decls ["Foo.bar"; "Baz"])
       (on_nodes (write 0 (set_leandecls ["Baz"])) sample_state))
  ∧ decls_listed sample_state
  ∧ decls_listed
      (on_doc (set_lean_decls ["Foo.bar"; "Baz"])
         (on_nodes (write 0 (set_leandecls ["Baz"])) sample_state)).
Proof.
  assert (rtc (step (H:=sample_plugin)) sample_state
            (on_doc (set_lean_decls ["Foo.bar"; "Baz"])
               (on_nodes (write 0 (set_leandecls ["Baz"])) sample_state)))
    as Hsteps.
  { apply rtc_once. by apply (step_digest (lean ["Baz"]) 0). }
  assert (decls_listed sample_state) as Hok.
  { intros n l d Hl. exfalso. revert Hl. unfold sample_state, get. simpl.
    destruct (sample_store !! n) as [nd|] eqn:Hn; [|done].
    unfold sample_store in Hn. simpl in Hn.
    repeat (rewrite lookup_insert in Hn; case_decide;
            [by injection Hn as <-|]).
    by rewrite lookup_empty in Hn. }
  split; [done|]. split; [done|].
  exact (declarations_stay_listed (H:=sample_plugin) _ _ Hsteps Hok).
Defined.

Lemma lean_urls_after_commands_witness :
  get lean_urls
    (make_lean_data (H:=sample_plugin) (Some "https://docs") [sample_graph]
       (write 0 (set_leandecls ["Foo"]) sample_store)) 0
  = Some [("Foo", "https://docs/find/#doc/Foo")].
Proof.
  refine (proj1 (lean_urls_after_commands (H:=sample_plugin) "https://docs"
                   ["Foo"] 0 0 sample_state _ _ _ sample_dep_graph
                   [(KStr "document", sample_graph)] (KStr "document") sample_graph
                   eq_refl eq_refl eq_refl eq_refl eq_refl _ _ _)).
  - by left.
  - compute_done.
  - eexists. by vm_compute.
Defined.

(** ** What the serializer produces *)





Section json.
Context `{Plugin}.










End json.


(** ** File names and titles *)

Lemma string_app_cons a (s t : string) :
  String a s +:+ t = String a (s +:+ t).
Proof. done. Qed.

Lemma string_app_nil_l (s : string) : "" +:+ s = s.
Proof. done. Qed.

Lemma string_app_nil_r (s : string) : s +:+ "" = s.
Proof.
  induction s as [|a s IH]; [done|]. by rewrite string_app_cons, IH.
Qed.

Lemma string_app_assoc (s t u : string) : (s +:+ t) +:+ u = s +:+ (t +:+ u).
Proof.
  induction s as [|a s IH]; [done|]. by rewrite !string_app_cons, IH.
Qed.

Lemma has_char_app c (s t : string) :
  has_char c (s +:+ t) = has_char c s || has_char c t.
Proof.
  induction s as [|a s IH]; [done|].
  rewrite string_app_cons. cbn. by rewrite IH, orb_assoc.
Qed.

Lemma last_char_app (s t : string) :
  t ≠ "" → last_char (s +:+ t) = last_char t.
Proof.
  intros Ht. induction s as [|a s IH]; [done|].
  rewrite string_app_cons. cbn.
  destruct (s +:+ t) eqn:Heq; [|done].
  destruct s; [|done]. rewrite string_app_nil_l in Heq. by subst.
Qed.

Lemma last_segment_from_spec (sep : ascii) (cur s : string) :
  has_char sep cur = false →
  has_char sep (last_segment_from sep cur s) = false
  ∧ ∃ p, cur +:+ s = p +:+ last_segment_from sep cur s
         ∧ (p = "" ∨ last_char p = Some sep)
         ∧ (has_char sep s = false → p = "").
Proof.
  revert cur. induction s as [|a s IH]; intros cur Hcur; cbn.
  - split; [done|]. exists "". rewrite string_app_nil_r.
    split; [done|]. split; [by left|done].
  - case_decide as Ha.
    + subst a. destruct (IH "" eq_refl) as (Hr & p & Heq & Hp & _).
      split; [done|]. exists (cur +:+ String sep p). split; [|split].
      * rewrite string_app_assoc, string_app_cons.
        rewrite string_app_nil_l in Heq. by rewrite <- Heq.
      * right. destruct Hp as [->|Hp].
        -- by rewrite last_char_app.
        -- rewrite last_char_app by done. cbn. by destruct p.
      * by rewrite bool_decide_eq_true_2.
    + destruct (IH (cur +:+ String a "")) as (Hr & p & Heq & Hp & Hnone).
      { rewrite has_char_app, Hcur. cbn.
        by rewrite bool_decide_eq_false_2. }
      split; [done|]. exists p. split; [|split; [done|]].
      * by rewrite <- Heq, string_app_assoc.
      * by rewrite bool_decide_eq_false_2.
Qed.

(** X16.  The name of the page of a node holds neither a colon nor a
    slash and is as long as the id it comes from; an id without these
    characters is kept; and ids that differ only by a colon, a slash or an
    underscore at some place get the same file name, so that the page of
    one replaces the page of the other. *)
Theorem safe_id_spec (id : string) :
  has_char ":" (safe_id id) = false
  ∧ has_char "/" (safe_id id) = false
  ∧ String.length (safe_id id) = String.length id
  ∧ (has_char ":" id = false → has_char "/" id = false → safe_id id = id)
  ∧ ∀ rest, safe_id (id +:+ String ":" rest)
            = safe_id (id +:+ String "_" rest)
            ∧ safe_id (id +:+ String "/" rest)
              = safe_id (id +:+ String "_" rest).
Proof.
  unfold safe_id. repeat split.
  - induction id as [|a id IH]; [done|]. cbn. rewrite IH.
    by repeat case_decide; subst.
  - induction id as [|a id IH]; [done|]. cbn. rewrite IH.
    by repeat case_decide; subst.
  - induction id as [|a id IH]; [done|]. cbn. by rewrite IH.
  - induction id as [|a id IH]; [done|]. cbn.
    intros [Ha Hid]%orb_false_iff [Hb Hid']%orb_false_iff.
    apply bool_decide_eq_false in Ha, Hb.
    rewrite IH by done. by repeat case_decide.
  - induction id as [|a id IH]; [done|].
    rewrite !string_app_cons. cbn. by rewrite IH.
  - induction id as [|a id IH]; [done|].
    rewrite !string_app_cons. cbn. by rewrite IH.
Qed.

Section node.
Context `{Plugin}.

(** X17.  A serialized node has the four keys [id], [kind], [caption] or
  [title], and [userdata]: the caption when the node has one, and
  otherwise, as title, what follows the last colon of the id, which is
  the whole id when it has no colon. *)
Theorem serialize_node_keys (σ : store) (node : nid) :
∃ d, serialize_node σ node = VDict d
     ∧ dict_get "id" d = Some (VStr (id_of σ node))
     ∧ dict_get "kind" d = Some (VStr (item_kind node))
     ∧ match σ !! node ≫= node_caption with
       | Some caption =>
           dict_keys d = ["id"; "kind"; "caption"; "userdata"]
           ∧ dict_get "caption" d = Some (VStr caption)
       | None =>
           dict_keys d = ["id"; "kind"; "title"; "userdata"]
           ∧ ∃ title prefix,
               dict_get "title" d = Some (VStr title)
               ∧ has_char ":" title = false
               ∧ id_of σ node = prefix +:+ title
               ∧ (prefix = "" ∨ last_char prefix = Some ":"%char)
               ∧ (has_char ":" (id_of σ node) = false → title = id_of σ node)
       end.
Proof.
unfold serialize_node. eexists. split; [done|].
destruct (σ !! node ≫= node_caption) as [caption|]; simpl.
- done.
- repeat split; try done.
  destruct (last_segment_from_spec ":" "" (id_of σ node) eq_refl)
    as (Hr & p & Heq & Hp & Hnone).
  eexists _, p. split; [done|]. split; [done|]. split; [done|].
  split; [done|]. intros Hno. rewrite (Hnone Hno) in Heq. done.
Qed.
End node.

(** ** The list of plugins *)

(** X18.  Loading the package leaves the plugins of the configuration in
    place and in order, adds the graph plugin when it is missing, adds the
    plugin of the show-more buttons when the option asks for it and it is
    missing, adds nothing else, and adds nothing when it is run again. *)
Theorem load_plugins_spec (options plugins : list string) :
  plugins `prefix_of` load_plugins options plugins
  ∧ "plastexdepgraph" ∈ load_plugins options plugins
  ∧ ("showmore" ∈ options → "plastexshowmore" ∈ load_plugins options plugins)
  ∧ (∀ x, x ∈ load_plugins options plugins →
          x ∈ plugins ∨ x = "plastexdepgraph"
          ∨ (x = "plastexshowmore" ∧ "showmore" ∈ options))
  ∧ (NoDup plugins → NoDup (load_plugins options plugins))
  ∧ load_plugins options (load_plugins options plugins)
    = load_plugins options plugins.
Proof.
  assert (∀ name l, l `prefix_of` ensure_plugin name l) as Hpre.
  { intros name l. unfold ensure_plugin. case_decide; [done|].
    by apply prefix_app_r. }
  assert (∀ name l, name ∈ ensure_plugin name l) as Hin.
  { intros name l. unfold ensure_plugin. case_decide; [done|].
    apply elem_of_app. right. by left. }
  assert (∀ name l x, x ∈ ensure_plugin name l → x ∈ l ∨ x = name) as Hout.
  { intros name l x. unfold ensure_plugin. case_decide; [by left|].
    intros [?|Hx%list_elem_of_singleton]%elem_of_app; [by left|by right]. }
  assert (∀ name l, NoDup l → NoDup (ensure_plugin name l)) as Hnd.
  { intros name l Hl. unfold ensure_plugin. case_decide; [done|].
    apply NoDup_app. split; [done|]. split; [|apply NoDup_singleton].
    by intros x Hx ->%list_elem_of_singleton. }
  assert (∀ name l, name ∈ l → ensure_plugin name l = l) as Hid.
  { intros name l Hl. unfold ensure_plugin. by case_decide. }
  assert (∀ name l x, x ∈ l → x ∈ ensure_plugin name l) as Hmono.
  { intros name l x Hx. unfold ensure_plugin. case_decide; [done|].
    apply elem_of_app. by left. }
  unfold load_plugins. case_decide as Hopt.
  - split; [by etrans; [apply Hpre|apply Hpre]|].
    split; [by apply Hmono|]. split; [done|].
    split; [|split].
    + intros x [[?|?]%Hout|?]%Hout; by auto.
    + intros. by apply Hnd, Hnd.
    + rewrite (Hid "plastexdepgraph") by by apply Hmono.
      by rewrite (Hid "plastexshowmore").
  - split; [apply Hpre|]. split; [done|]. split; [done|].
    split; [|split].
    + intros x [?|?]%Hout; by auto.
    + apply Hnd.
    + by rewrite (Hid "plastexdepgraph").
Qed.

(** ** The exported tables and the generated pages *)

Lemma foldl_dict_set_fmap {K A} `{EqDecision K} (f : A → value)
    (d : list (K * A)) acc :
  NoDup (dict_keys acc ++ dict_keys d) →
  foldl (λ acc kv, dict_set kv.1 (f kv.2) acc) acc d
  = acc ++ ((λ kv, (kv.1, f kv.2)) <$> d).
Proof.
  revert acc. induction d as [|[k v] d IH]; intros acc Hnd; simpl.
  - by rewrite app_nil_r.
  - assert (k ∉ dict_keys acc) as Hk.
    { apply NoDup_app in Hnd as (_ & Hdisj & _). intros Hin.
      apply (Hdisj k Hin). by left. }
    rewrite dict_set_fresh by done. rewrite IH.
    + by rewrite <- app_assoc.
    + unfold dict_keys in *. rewrite fmap_app, <- app_assoc. done.
Qed.

Section tables.
Context `{Plugin}.

(** X19.  With a dependency graph in the document, every colour, every
  legend entry and every graph is exported once, in the order of the
  document and under its own key: the colours and legend entries through
  their conversion to a dictionary, each graph as its serialization. *)
Theorem export_keeps_entries σ doc dg cs gs :
dep_graph doc = Some dg → colors dg = Some cs → graphs dg = Some gs →
NoDup (dict_keys cs) → NoDup (dict_keys gs) →
dict_get "dep_graph" (export_data σ doc)
= Some
    (VDict
       [ ("colors",
          VDict ((λ kv, (kv.1, pair_entry "color" "description" kv.2))
                   <$> cs));
         ("legend",
          VList (pair_entry "label" "description"
                   <$> default [] (legend dg)));
         ("graphs",
          VMap ((λ kv, (kv.1, VDict (serialize_graph σ kv.2))) <$> gs)) ]).
Proof.
intros Hdg Hcs Hgs Hndc Hndg. unfold export_data.
rewrite Hdg, Hcs, Hgs. simpl default.
rewrite (foldl_dict_set_fmap (pair_entry "color" "description")) by done.
rewrite (foldl_dict_set_fmap (λ g, VDict (serialize_graph σ g))) by done.
done.
Qed.
End tables.

Lemma export_keeps_entries_witness :
  NoDup (dict_keys default_colors)
  ∧ NoDup (dict_keys [(KStr "document", sample_graph)])
  ∧ is_Some
      (dict_get "dep_graph"
         (export_data (H:=sample_plugin) sample_store
            (sample_document (Some sample_dep_graph)))).
Proof.
  assert (NoDup (dict_keys default_colors)) as Hc by compute_done.
  assert (NoDup (dict_keys [(KStr "document", sample_graph)])) as Hg
    by (apply NoDup_singleton).
  split; [done|]. split; [done|].
  rewrite (export_keeps_entries (H:=sample_plugin) sample_store
             (sample_document (Some sample_dep_graph)) sample_dep_graph
             default_colors [(KStr "document", sample_graph)]
             eq_refl eq_refl eq_refl Hc Hg).
  by eexists.
Defined.

Section pages.
Context `{Plugin} `{Host}.

(** X20.  The generation of the subgraph pages always returns, and logs
  at most one entry.  Either the files it returns are rendered pages,
  whatever they held before, every other file is as it was, and it
  logs one information entry when it returns some; or it logged the
  warning and returns the empty list, and every file is as it was, or is
  the page of a node of the document, rendered before the failure or
  left incomplete.  The files it returns are pages of nodes of the
  document. *)
Theorem subgraph_pages_reported σ doc w :
let pages := document_pages σ (default [] (dep_graph doc ≫= graphs)) in
∃ files logged w',
  make_subgraph_html σ doc w = (Ok files, w')
  ∧ w_log w' = w_log w ++ logged
  ∧ ((wrote_pages files (w_files w) (w_files w')
      ∧ (∀ f, f ∈ files → f ∈ pages)
      ∧ (files = [] ∧ logged = []
         ∨ files ≠ [] ∧ ∃ msg, logged = [(INFO, msg)]))
     ∨ (files = []
        ∧ (∃ e, logged
                = [(WARNING, "Error generating subgraphs: " +:+ e)])
        ∧ touched_pages pages (w_files w) (w_files w'))).
Proof.
intros pages. unfold make_subgraph_html, try_except.
pose proof (generate_subgraphs_touched σ doc w) as Hgen.
destruct (generate_subgraphs σ doc w) as [[files|e] w1].
- destruct Hgen as (Hw & Hin & [[-> Hlog]|[Hne [msg Hlog]]]).
  + exists [], [], w1. split; [done|]. split; [by rewrite app_nil_r|].
    left. split; [done|]. split; [done|]. by left.
  + exists files, [(INFO, msg)], w1. split; [done|]. split; [done|].
    left. split; [done|]. split; [done|]. right. split; [done|].
    by eexists.
- destruct Hgen as [Htouched Hlog].
  eexists [], [_], _. unfold bind, log_msg, ret. simpl.
  split; [done|]. split; [by rewrite Hlog|]. right.
  split; [done|]. split; [by eexists|done].
Qed.

Lemma has_dependencies_ancestor g n m :
n ∈ nodes g → m ∈ ancestors g n → m ≠ n → has_dependencies g n = true.
Proof.
intros Hn Hm Hne. unfold has_dependencies, subgraph.
rewrite decide_True by done. cbn [nodes]. apply bool_decide_eq_true.
assert (({[m]} : gset nat) ∪ {[n]} ⊆ ancestors g n ∪ {[n]}) as Hsub.
{ intros x [Hx|Hx]%elem_of_union; apply elem_of_union;
    [left; by apply elem_of_singleton in Hx as ->|by right]. }
apply subseteq_size in Hsub.
rewrite size_union in Hsub
  by (apply disjoint_singleton_l; by intros ?%elem_of_singleton).
by rewrite !size_singleton in Hsub.
Qed.

(** X21.  When the template is found and the generation of the pages does
  not fail, the list it returns is the list of the pages of the nodes
  whose subgraph has more than one node, graph by graph in the order
  of the loops; every node of a graph that has an ancestor other than
  itself has its page in the list, and the file of that name holds a
  rendered page. *)
Theorem page_of_dependent_node σ doc dg gs tpl w files w' :
dep_graph doc = Some dg → graphs dg = Some gs →
load_template = Ok (Some tpl) →
generate_subgraphs σ doc w = (Ok files, w') →
make_subgraph_html σ doc w = (Ok files, w')
∧ files = document_pages σ gs
∧ ∀ sec g n m, (sec, g) ∈ gs → n ∈ nodes g → m ∈ ancestors g n → m ≠ n →
    page_name σ n ∈ files ∧ is_page (w_files w' !! page_name σ n).
Proof.
intros Hdg Hgs Htpl Hgen.
split; [unfold make_subgraph_html, try_except; by rewrite Hgen|].
pose proof (generate_subgraphs_pages σ doc dg tpl w Hdg Htpl) as Hpages.
rewrite Hgen, Hgs in Hpages. simpl in Hpages.
destruct Hpages as (-> & [_ Hwrote] & _). split; [done|].
intros sec g n m Hin Hn Hm Hne.
assert (page_name σ n ∈ document_pages σ gs) as Hpage.
{ unfold document_pages. apply list_elem_of_bind.
  exists (sec, g). split; [|done]. simpl. unfold graph_pages.
  apply list_elem_of_fmap. exists n. split; [done|].
  apply list_elem_of_filter. split.
  - by apply (has_dependencies_ancestor g n m).
  - by apply elem_of_elements. }
split; [done|]. by apply Hwrote.
Qed.
End pages.

Lemma subgraph_pages_reported_witness :
  make_subgraph_html (H:=sample_plugin) (H0:=working_host) sample_store
    (sample_document (Some sample_dep_graph))
    (mkWorld [] {[ "subgraph_thm_a.html" := Text "old" ]})
  = (Ok ["subgraph_thm_a.html"],
     mkWorld
       [(INFO, "Generated 1 subgraph HTML files from 1 graph(s) with 3 total nodes")]
       {[ "subgraph_thm_a.html" :=
            Html "Dependencies of a" (mkDepGraph {[0; 1]} {[(1, 0)]} ∅) ]}).
Proof.
  destruct (subgraph_pages_reported (H:=sample_plugin) (H0:=working_host)
              sample_store (sample_document (Some sample_dep_graph))
              (mkWorld [] {[ "subgraph_thm_a.html" := Text "old" ]}))
    as (files & logged & w' & Heq & _).
  rewrite Heq. by vm_compute in Heq.
Defined.

Lemma page_of_dependent_node_witness :
  dep_graph (sample_document (Some sample_dep_graph)) = Some sample_dep_graph
  ∧ graphs sample_dep_graph = Some [(KStr "document", sample_graph)]
  ∧ load_template (Host:=working_host) = Ok (Some "dep_graph.html")
  ∧ ∃ files w',
      generate_subgraphs (H:=sample_plugin) (H0:=working_host) sample_store
        (sample_document (Some sample_dep_graph)) (mkWorld [] ∅)
      = (Ok files, w')
      ∧ page_name sample_store 0 ∈ files
      ∧ is_page (w_files w' !! page_name sample_store 0).
Proof.
  split; [done|]. split; [done|]. split; [done|].
  destruct (generate_subgraphs (H:=sample_plugin) (H0:=working_host)
              sample_store (sample_document (Some sample_dep_graph))
              (mkWorld [] ∅)) as [[files|e] w'] eqn:Hgen;
    [|by vm_compute in Hgen].
  exists files, w'. split; [done|].
  destruct (page_of_dependent_node (H:=sample_plugin) (H0:=working_host)
              sample_store (sample_document (Some sample_dep_graph))
              sample_dep_graph [(KStr "document", sample_graph)]
              "dep_graph.html" (mkWorld [] ∅) files w'
              eq_refl eq_refl eq_refl Hgen) as (_ & _ & Hnode).
  apply (Hnode (KStr "document") sample_graph 0 1); [by left|..];
    by compute_done.
Defined.
